(** * scripts/scrape.py: staleness selection, fetch outcomes, extraction, merge

    A shallow embedding of [src/scripts/scrape.py].  Python values are
    modelled as follows.

    - [str] is [string]: the UTF-8 bytes of the text, a lone surrogate code
      point (which a [str] read from JSON can hold) being written as the
      three bytes that the same scheme gives it.  Comparison of two [str] is
      the lexicographic order on bytes ([String.compare]), which agrees with
      Python's code point order.
    - [PackageInfo] (a [TypedDict] with [total=False]) is a record whose
      optional keys are [option] fields: [None] is an absent key.  A key of
      type [str | None] is an [option (option string)]: [Some None] is a key
      that is present and holds Python's [None].
    - [OutputFormat], the dict from package name to record, is a [gmap].
    - The parsed page is a tree of bs4 [Tag]s and [NavigableString]s.
    - What the network answers and the order in which fetches complete are
      inputs of [main]. *)

From Stdlib Require Import ZArith String Ascii List Sorted Permutation Lia.
From stdpp Require Import base option list gmap strings pretty.

Local Open Scope Z_scope.
Set Warnings "-register-all".

(** ** Data model *)

Definition Name := string.
Definition IsoTimestamp := string.

(** [class PackageInfo(TypedDict, total=False)].  [last_scraped] is declared
    [Required], but [packages_sorted_by_age] reads it with a default, so the
    model lets a stored record lack it. *)
Record PackageInfo := {
  name : Name;
  first_seen : option (option string);
  total_installs : option Z;
  win_installs : option Z;
  mac_installs : option Z;
  linux_installs : option Z;
  last_scraped : option IsoTimestamp;
  fail_reason : option (option string);
}.

(** [type OutputFormat = dict[Name, PackageInfo]] *)
Abbreviation OutputFormat := (gmap Name PackageInfo).

(** ** Builtins: [sorted] and slicing *)

(** [sorted(iterable, key=...)] is a stable sort that compares keys with [<].
    An element is moved past exactly the elements whose key is strictly
    smaller than its own. *)
Fixpoint insert_by_key {A} (key : A -> string) (x : A) (l : list A) : list A :=
  match l with
  | [] => [x]
  | y :: l' =>
      if String.ltb (key y) (key x) then y :: insert_by_key key x l'
      else x :: y :: l'
  end.

Definition sorted {A} (key : A -> string) (l : list A) : list A :=
  foldr (insert_by_key key) [] l.

(** [l[:limit]]: [None] keeps the list, a non-negative bound keeps that many
    leading items, a negative bound drops that many trailing items. *)
Definition slice_to {A} (l : list A) (limit : option Z) : list A :=
  match limit with
  | None => l
  | Some k =>
      if 0 <=? k then take (Z.to_nat k) l
      else take (Z.to_nat (Z.of_nat (length l) + k)) l
  end.

(** ** Staleness selector *)

Definition epoch : IsoTimestamp := "1970-01-01 00:00:00".

(** [existing_data.get(name, {}).get("last_scraped", "1970-01-01 00:00:00")] *)
Definition age_key (existing_data : OutputFormat) (pkg : Name) : IsoTimestamp :=
  match existing_data !! pkg with
  | Some info => default epoch (last_scraped info)
  | None => epoch
  end.

Definition packages_sorted_by_age (input_packages : list Name)
    (existing_data : OutputFormat) (if_older_than : IsoTimestamp) : list Name :=
  sorted (age_key existing_data)
    (List.filter
       (fun pkg => String.leb (age_key existing_data pkg) if_older_than)
       input_packages).

(** ** Builtins: [str] methods and [int] *)

(** [s.replace(old, new)] for a one-character [old]. *)
Fixpoint replace (old : ascii) (new : string) (s : string) : string :=
  match s with
  | EmptyString => EmptyString
  | String c s' =>
      if Ascii.eqb c old then new +:+ replace old new s'
      else String c (replace old new s')
  end.

(** [c in s] for a one-character [c]. *)
Fixpoint occurs (c : ascii) (s : string) : bool :=
  match s with
  | EmptyString => false
  | String c' s' => Ascii.eqb c' c || occurs c s'
  end.

(** [s.lstrip(chars)] and [s.rstrip(chars)], the set of characters given as a
    predicate. *)
Fixpoint lstrip (chars : ascii -> bool) (s : string) : string :=
  match s with
  | EmptyString => EmptyString
  | String c s' => if chars c then lstrip chars s' else s
  end.

Fixpoint rstrip (chars : ascii -> bool) (s : string) : string :=
  match s with
  | EmptyString => EmptyString
  | String c s' =>
      match rstrip chars s' with
      | EmptyString => if chars c then EmptyString else String c EmptyString
      | r => String c r
      end
  end.

Definition code_in (codes : list N) (c : ascii) : bool :=
  existsb (N.eqb (N_of_ascii c)) codes.

(** The characters of a [str], each as the bytes that encode it.  The first
    byte tells how many bytes follow; a byte that cannot start a character
    stands alone. *)
Fixpoint chars (s : string) : list string :=
  match s with
  | EmptyString => []
  | String c1 s1 =>
      if (N_of_ascii c1 <? 192)%N then String c1 EmptyString :: chars s1
      else
        match s1 with
        | EmptyString => [String c1 EmptyString]
        | String c2 s2 =>
            if (N_of_ascii c1 <? 224)%N then
              String c1 (String c2 EmptyString) :: chars s2
            else
              match s2 with
              | EmptyString => [String c1 (String c2 EmptyString)]
              | String c3 s3 =>
                  if (N_of_ascii c1 <? 240)%N then
                    String c1 (String c2 (String c3 EmptyString)) :: chars s3
                  else
                    match s3 with
                    | EmptyString =>
                        [String c1 (String c2 (String c3 EmptyString))]
                    | String c4 s4 =>
                        String c1 (String c2 (String c3 (String c4 EmptyString)))
                        :: chars s4
                    end
              end
        end
  end.

(** [ord(ch)]: the code point of one character.  Bytes that encode no
    character are given a number above every code point. *)
Definition ord (ch : string) : N :=
  match ch with
  | String c1 EmptyString =>
      if (N_of_ascii c1 <? 128)%N then N_of_ascii c1
      else (1114112 + N_of_ascii c1)%N
  | String c1 (String c2 EmptyString) =>
      if (N_of_ascii c1 <? 224)%N then
        ((N_of_ascii c1 - 192) * 64 + N_of_ascii c2 mod 64)%N
      else 1114112%N
  | String c1 (String c2 (String c3 EmptyString)) =>
      if (N_of_ascii c1 <? 240)%N then
        ((N_of_ascii c1 - 224) * 4096 + (N_of_ascii c2 mod 64) * 64
         + N_of_ascii c3 mod 64)%N
      else 1114112%N
  | String c1 (String c2 (String c3 (String c4 EmptyString))) =>
      ((N_of_ascii c1 - 240) * 262144 + (N_of_ascii c2 mod 64) * 4096
       + (N_of_ascii c3 mod 64) * 64 + N_of_ascii c4 mod 64)%N
  | _ => 1114112%N
  end.

(** [ch.isspace()]: the code points that Python takes for whitespace. *)
Definition isspace (ch : string) : bool :=
  existsb (N.eqb (ord ch))
    [9; 10; 11; 12; 13; 28; 29; 30; 31; 32; 133; 160; 5760; 8192; 8193;
     8194; 8195; 8196; 8197; 8198; 8199; 8200; 8201; 8202; 8232; 8233;
     8239; 8287; 12288]%N.

Fixpoint dropwhile {A} (p : A -> bool) (l : list A) : list A :=
  match l with
  | [] => []
  | x :: l' => if p x then dropwhile p l' else l
  end.

(** [s.strip()]: the characters of [s] without the whitespace at either
    end. *)
Definition strip (s : string) : string :=
  String.concat EmptyString
    (rev (dropwhile isspace (rev (dropwhile isspace (chars s))))).

(** The code points of the digits zero of the decimal digit sets of Unicode
    15, the version of Python 3.12 and 3.13; the nine code points after each
    are the digits one to nine of the set. *)
Definition decimal_zeros : list N :=
  [48; 1632; 1776; 1984; 2406; 2534; 2662; 2790; 2918; 3046; 3174; 3302;
   3430; 3558; 3664; 3792; 3872; 4160; 4240; 6112; 6160; 6470; 6608; 6784;
   6800; 6992; 7088; 7232; 7248; 42528; 43216; 43264; 43472; 43504; 43600;
   44016; 65296; 66720; 68912; 69734; 69872; 69942; 70096; 70384; 70736;
   70864; 71248; 71360; 71472; 71904; 72016; 72784; 73040; 73120; 73552;
   92768; 92864; 93008; 120782; 120792; 120802; 120812; 120822; 123200;
   123632; 124144; 125264; 130032]%N.

(** [unicodedata.decimal(ch, None)] *)
Definition decimal (ch : string) : option N :=
  (fun z => ord ch - z)%N
  <$> List.find (fun z => (z <=? ord ch) && (ord ch <? z + 10))%N decimal_zeros.

(** What [int] makes of one character before it reads the text: an ASCII
    character stays, any other whitespace becomes a space, any other decimal
    digit becomes the ASCII digit of its value, and anything else becomes a
    question mark, which no numeral holds. *)
Definition to_ascii_char (ch : string) : ascii :=
  if (ord ch <? 127)%N then ascii_of_N (ord ch)
  else if isspace ch then " "%char
  else match decimal ch with
       | Some d => ascii_of_N (48 + d)
       | None => "?"%char
       end.

Definition to_ascii (s : string) : string :=
  string_of_list_ascii (to_ascii_char <$> chars s).

(** The blanks that [int] skips at either end of the ASCII text: the
    separators 0x1c to 0x1f are not among them. *)
Definition is_blank : ascii -> bool := code_in [9; 10; 11; 12; 13; 32]%N.

Definition digit_value (c : ascii) : option Z :=
  let n := N_of_ascii c in
  if ((48 <=? n) && (n <=? 57))%N then Some (Z.of_N n - 48) else None.

(** [sys.get_int_max_str_digits()], which the scraper leaves at its
    default. *)
Definition int_max_str_digits : nat := 4300.

(** The digits of a numeral: single underscores may separate digits, and a
    numeral of more than [int_max_str_digits] digits is refused. *)
Fixpoint int_digits (acc : Z) (digits : nat) (after_digit : bool) (s : string)
  : option Z :=
  match s with
  | EmptyString =>
      if after_digit && (digits <=? int_max_str_digits)%nat then Some acc
      else None
  | String c s' =>
      match digit_value c with
      | Some d => int_digits (10 * acc + d) (S digits) true s'
      | None =>
          if Ascii.eqb c "_" && after_digit then int_digits acc digits false s'
          else None
      end
  end.

(** [int(s)]: surrounding blanks, an optional sign, then the digits.
    [None] is [ValueError]. *)
Definition int (s : string) : option Z :=
  match rstrip is_blank (lstrip is_blank (to_ascii s)) with
  | String "-" s' => Z.opp <$> int_digits 0 0 false s'
  | String "+" s' => int_digits 0 0 false s'
  | s' => int_digits 0 0 false s'
  end.

(** ** The parsed page *)

(** A bs4 [Tag]: its name, the list held by [attrs["class"]] (empty when the
    attribute is absent), [attrs.get("title")], and its children.  The other
    attributes are not read by the scraper. *)
Inductive PageElement :=
| NavigableString (s : string)
| Tag (tag_name : string) (class_ : list string) (title : option string)
      (contents : list PageElement).

(** [tag.text]: all the strings below the tag, in document order. *)
Fixpoint text (e : PageElement) : string :=
  match e with
  | NavigableString s => s
  | Tag _ _ _ cs =>
      (fix go (l : list PageElement) : string :=
         match l with
         | [] => EmptyString
         | c :: l' => text c +:+ go l'
         end) cs
  end.

Definition attrs_get_title (e : PageElement) : option string :=
  match e with
  | Tag _ _ t _ => t
  | NavigableString _ => None
  end.

Definition has_name (nm : string) (e : PageElement) : bool :=
  match e with
  | Tag n _ _ _ => String.eqb n nm
  | NavigableString _ => false
  end.

(** The filter of [find("span", class_=[...])]: a tag of that name one of
    whose classes is one of the listed ones. *)
Definition matches (nm : string) (classes : list string) (e : PageElement) : bool :=
  match e with
  | Tag n cls _ _ =>
      String.eqb n nm
      && existsb (fun c => existsb (String.eqb c) classes) cls
  | NavigableString _ => false
  end.

(** [tag.find(...)]: the first descendant, in document order, that passes the
    filter.  It is returned with the siblings that follow it, which is what
    [find_next_sibling] looks at. *)
Fixpoint find (p : PageElement -> bool) (e : PageElement)
  : option (PageElement * list PageElement) :=
  match e with
  | NavigableString _ => None
  | Tag _ _ _ cs =>
      (fix go (l : list PageElement) :=
         match l with
         | [] => None
         | c :: l' =>
             if p c then Some (c, l')
             else match find p c with
                  | Some r => Some r
                  | None => go l'
                  end
         end) cs
  end.

(** [tag.find_next_sibling("span")], from the siblings after the tag. *)
Definition find_next_sibling (nm : string) (following : list PageElement)
  : option PageElement :=
  List.find (has_name nm) following.

(** [tag.find_all("li", recursive=False)] *)
Definition find_all_children (nm : string) (e : PageElement) : list PageElement :=
  match e with
  | Tag _ _ _ cs => List.filter (has_name nm) cs
  | NavigableString _ => []
  end.

(** ** Field extractor *)

Definition parse_first_seen (span : PageElement) : option string :=
  match attrs_get_title span with
  | None => None
  | Some t =>
      if String.eqb t "" then None
      else Some (rstrip (Ascii.eqb "Z") (replace "T" " " t))
  end.

(** The dict that [parse_installs] fills: only these four keys are ever
    assigned. *)
Record Installs := {
  i_total_installs : option Z;
  i_win_installs : option Z;
  i_mac_installs : option Z;
  i_linux_installs : option Z;
}.

Definition no_installs : Installs :=
  {| i_total_installs := None; i_win_installs := None;
     i_mac_installs := None; i_linux_installs := None |}.

(** Lines 181 to 184: the counter's [title], ["0"] when it has none, without
    its commas, read as an integer; [0] when [int] raises. *)
Definition installs_count (installs_span : PageElement) : Z :=
  default 0 (int (replace "," "" (default "0" (attrs_get_title installs_span)))).

(** One turn of the loop over the [li] children. *)
Definition parse_installs_li (installs : Installs) (li : PageElement) : Installs :=
  match find (matches "span" ["total"; "platform"]) li with
  | None => installs
  | Some (label_span, following) =>
      let label := strip (text label_span) in
      match find_next_sibling "span" following with
      | None => installs
      | Some installs_span =>
          let count := installs_count installs_span in
          if String.eqb label "Total" then
            {| i_total_installs := Some count;
               i_win_installs := i_win_installs installs;
               i_mac_installs := i_mac_installs installs;
               i_linux_installs := i_linux_installs installs |}
          else if String.eqb label "Win" then
            {| i_total_installs := i_total_installs installs;
               i_win_installs := Some count;
               i_mac_installs := i_mac_installs installs;
               i_linux_installs := i_linux_installs installs |}
          else if String.eqb label "Mac" then
            {| i_total_installs := i_total_installs installs;
               i_win_installs := i_win_installs installs;
               i_mac_installs := Some count;
               i_linux_installs := i_linux_installs installs |}
          else if String.eqb label "Linux" then
            {| i_total_installs := i_total_installs installs;
               i_win_installs := i_win_installs installs;
               i_mac_installs := i_mac_installs installs;
               i_linux_installs := Some count |}
          else installs
      end
  end.

Definition parse_installs (ul : PageElement) : Installs :=
  fold_left parse_installs_li (find_all_children "li" ul) no_installs.

(** ** Document fetcher *)

(** What [BeautifulSoup(text, "html.parser")] answers to the two
    [select_one] calls of [fetch_package]. *)
Record Soup := {
  select_first_seen : option PageElement;
  select_installs : option PageElement;
}.

(** What happens inside the [try] block of [fetch_package]: an exception is
    raised by [session.get] or by [resp.text()], or the request completes
    with a status and a body. *)
Inductive Response :=
| Raised
| Completed (status : Z) (soup : Soup).

Definition fetch_package (resp : Response) (pkg : Name) (now : IsoTimestamp)
  : option PackageInfo :=
  match resp with
  | Raised => None
  | Completed status soup =>
      if negb (status =? 200) then
        Some {| name := pkg;
                first_seen := None;
                total_installs := None; win_installs := None;
                mac_installs := None; linux_installs := None;
                last_scraped := Some now;
                fail_reason := Some (Some ("HTTP " +:+ pretty status)) |}
      else
        let first_seen_ :=
          match select_first_seen soup with
          | Some first_seen_span => parse_first_seen first_seen_span
          | None => None
          end in
        let installs :=
          match select_installs soup with
          | Some installs_ul => parse_installs installs_ul
          | None => no_installs
          end in
        Some {| name := pkg;
                first_seen := Some first_seen_;
                total_installs := i_total_installs installs;
                win_installs := i_win_installs installs;
                mac_installs := i_mac_installs installs;
                linux_installs := i_linux_installs installs;
                last_scraped := Some now;
                fail_reason := None |}
  end.

(** ** The page address *)

(** The characters [quote] never escapes: letters, digits and [_ . - ~].
    With [safe=""] nothing else is kept, the slash included. *)
Definition is_unreserved (c : ascii) : bool :=
  let n := N_of_ascii c in
  ((65 <=? n) && (n <=? 90) || (97 <=? n) && (n <=? 122)
   || (48 <=? n) && (n <=? 57))%N
  || code_in [95; 46; 45; 126]%N c.

(** One digit of ["%{:02X}"]. *)
Definition hex_digit (n : N) : ascii :=
  if (n <? 10)%N then ascii_of_N (48 + n) else ascii_of_N (55 + n).

(** [urllib.parse.quote(name, safe="")] on the UTF-8 bytes of the name. *)
Fixpoint quote (s : string) : string :=
  match s with
  | EmptyString => EmptyString
  | String c s' =>
      if is_unreserved c then String c (quote s')
      else String "%"
             (String (hex_digit (N_of_ascii c / 16))
                (String (hex_digit (N_of_ascii c mod 16)) (quote s')))
  end.

(** [quote] encodes the name with the strict UTF-8 codec first, which raises
    [UnicodeEncodeError] on a surrogate code point; [quote] above is the
    result for every other name. *)
Definition quote_raises (s : string) : bool :=
  existsb (fun ch => (55296 <=? ord ch) && (ord ch <=? 57343))%N (chars s).

Definition BASE_URL : string := "https://packagecontrol.io/packages/".

(** [BASE_URL.format(quote(name, safe=""))] *)
Definition package_url (pkg : Name) : string := BASE_URL +:+ quote pkg.

(** The reading of percent escapes that servers apply to a path: the
    inverse of [quote], used to state that [quote] loses nothing. *)
Definition hex_value (c : ascii) : option N :=
  let n := N_of_ascii c in
  if ((48 <=? n) && (n <=? 57))%N then Some (n - 48)%N
  else if ((65 <=? n) && (n <=? 70))%N then Some (n - 55)%N
  else if ((97 <=? n) && (n <=? 102))%N then Some (n - 87)%N
  else None.

Fixpoint unquote (s : string) : string :=
  match s with
  | EmptyString => EmptyString
  | String c s1 =>
      if Ascii.eqb c "%" then
        match s1 with
        | String h (String l s2) =>
            match hex_value h, hex_value l with
            | Some a, Some b => String (ascii_of_N (16 * a + b)) (unquote s2)
            | _, _ => String c (unquote s1)
            end
        | _ => String c (unquote s1)
        end
      else String c (unquote s1)
  end.

(** ** Merge *)

(** The loop [for res in results: existing_data[res["name"]] = res]. *)
Definition merge (existing_data : OutputFormat) (results : list PackageInfo)
  : OutputFormat :=
  fold_left (fun data res => <[name res := res]> data) results existing_data.

(** ** The run *)

(** The registry file as [main] finds it: [open]/[json.load] raised, or the
    document loaded, with the names of the entries under its ["packages"] key
    when it has that key. *)
Inductive RegistryFile :=
| RegistryUnreadable
| RegistryLoaded (packages : option (list Name)).

(** The output file as [load_existing_data] finds it. *)
Inductive OutputFile :=
| FileMissing
| FileCorrupt
| FileJson (data : OutputFormat).

(** [None] is the exception [json.load] raises on a file that is not JSON. *)
Definition load_existing_data (output : OutputFile) : option OutputFormat :=
  match output with
  | FileMissing => Some ∅
  | FileCorrupt => None
  | FileJson data => Some data
  end.

(** How a run of [main] ends. *)
Inductive Exit :=
| ExitFatal                       (* registry not loaded: message, [return] *)
| ExitRaised                      (* an exception left [main] *)
| ExitNothingOlder                (* "No packages to scrape ...", [return] *)
| ExitSaved (data : OutputFormat) (* [json.dump(existing_data, f)] done *).

(** The output file after the run: only [json.dump] writes it. *)
Definition output_after (output : OutputFile) (e : Exit) : OutputFile :=
  match e with
  | ExitSaved data => FileJson data
  | _ => output
  end.

Section Run.

(** The [--if-older-than] argument is a Python [float]; the scraper only
    tests it for truth and hands it to [timedelta]. *)
Context {hours : Type}.
(** [bool(h)]: false exactly for a zero. *)
Variable truthy : hours -> bool.
(** [now.strftime("%Y-%m-%d %H:%M:%S")] *)
Variable now_string : IsoTimestamp.
(** [(now - timedelta(hours=h)).strftime("%Y-%m-%d %H:%M:%S")] *)
Variable hours_before_now : hours -> IsoTimestamp.
(** [asyncio.as_completed]: the tasks in the order in which they finish. *)
Variable as_completed : list (option PackageInfo) -> list (option PackageInfo).
(** The answer to the request of the task at a position of [to_scrape]. *)
Variable session : nat -> Name -> Response.

(** Line 55.  [if_older_than or 0] is [0] for [None] and for a zero, and
    [now - timedelta(hours=0)] is [now]. *)
Definition if_older_than_ (if_older_than : option hours) : IsoTimestamp :=
  match if_older_than with
  | Some h => if truthy h then hours_before_now h else now_string
  | None => now_string
  end.

(** Lines 56 and 57. *)
Definition to_scrape (input_names : list Name) (existing_data : OutputFormat)
    (limit : option Z) (if_older_than : option hours) : list Name :=
  slice_to
    (packages_sorted_by_age input_names existing_data
       (if_older_than_ if_older_than))
    limit.

(** Lines 67 to 84: one task per selected name, the outcomes that are not
    [None] collected in completion order. *)
Definition results (names : list Name) : list PackageInfo :=
  let tasks := imap (fun i pkg => fetch_package (session i pkg) pkg now_string) names in
  omap id (as_completed tasks).

(** [quote] is called at line 123, before the [try] of [fetch_package]: when
    it raises for a selected name, [await coro] at line 81 raises in [main]
    and the run ends before the merge.  A [Response] stands for what the
    [try] block and the parser make of a request, so the parsing of lines 139
    to 147 is taken to succeed. *)
Definition main (registry : RegistryFile) (output : OutputFile)
    (limit : option Z) (if_older_than : option hours) : Exit :=
  match registry with
  | RegistryUnreadable => ExitFatal
  | RegistryLoaded packages =>
      let input_names := default [] packages in
      match load_existing_data output with
      | None => ExitRaised
      | Some existing_data =>
          let names := to_scrape input_names existing_data limit if_older_than in
          match names, if_older_than with
          | [], Some _ => ExitNothingOlder
          | _, _ =>
              if existsb quote_raises names then ExitRaised
              else ExitSaved (merge existing_data (results names))
          end
      end
  end.

End Run.

(** ** Sample data *)

(** Two values of [--if-older-than]: 0.0 and 1.0. *)
Inductive SampleHours := ZeroHours | OneHour.

Definition sample_truthy (h : SampleHours) : bool :=
  match h with ZeroHours => false | OneHour => true end.

Definition sample_now : IsoTimestamp := "2025-05-07 12:00:00".

Definition sample_hours_before_now (h : SampleHours) : IsoTimestamp :=
  match h with
  | ZeroHours => "2025-05-07 12:00:00"
  | OneHour => "2025-05-07 11:00:00"
  end.

(** A run in which the tasks finish in reverse order of dispatch. *)
Definition sample_as_completed (tasks : list (option PackageInfo))
  : list (option PackageInfo) := reverse tasks.

Definition span (class_ : list string) (title : option string) (s : string)
  : PageElement := Tag "span" class_ title [NavigableString s].

Definition li (label_class label count : string) : PageElement :=
  Tag "li" []  None
    [NavigableString " "; span [label_class] None label;
     NavigableString " "; span ["installs"] (Some count) count].

(** The installs section with entries Total=1,234, Win=900, Linux-beta=5. *)
Definition sample_installs_ul : PageElement :=
  Tag "ul" ["totals"] None
    [li "total" " Total " "1,234"; NavigableString " ";
     li "platform" "Win" "900"; li "platform" "Linux-beta" "5"].

Definition sample_first_seen_span : PageElement :=
  span [] (Some "2025-05-07T18:00:05Z") "1 year ago".

Definition sample_soup : Soup :=
  {| select_first_seen := Some sample_first_seen_span;
     select_installs := Some sample_installs_ul |}.

(** A stored record of an earlier successful scrape. *)
Definition sample_record (pkg : Name) (scraped : IsoTimestamp) : PackageInfo :=
  {| name := pkg; first_seen := Some (Some "2020-01-01 00:00:00");
     total_installs := Some 500; win_installs := None;
     mac_installs := None; linux_installs := None;
     last_scraped := Some scraped; fail_reason := None |}.

(** A store with two packages scraped some days before [sample_now]. *)
Definition sample_store : OutputFormat :=
  {[ "X" := sample_record "X" "2025-05-01 08:00:00";
     "Y" := sample_record "Y" "2025-05-02 08:00:00" ]}.

(** A store whose only record was scraped half an hour before [sample_now]. *)
Definition sample_fresh_store : OutputFormat :=
  {[ "A" := sample_record "A" "2025-05-07 11:30:00" ]}.

(** A store whose only record carries a timestamp after [sample_now]. *)
Definition sample_later_store : OutputFormat :=
  {[ "late" := sample_record "late" "2030-01-01 00:00:00" ]}.

(** A network on which the request for X raises, the page of Y is gone and
    every other name has the sample page. *)
Definition sample_session (i : nat) (pkg : Name) : Response :=
  if String.eqb pkg "X" then Raised
  else if String.eqb pkg "Y" then
    Completed 404 {| select_first_seen := None; select_installs := None |}
  else Completed 200 sample_soup.

(** ** Reading the installs dict and the store *)

(** [installs.get(key)] for the key that a label writes; a label that is not
    one of the four writes no key. *)
Definition installs_get (label : string) (installs : Installs) : option Z :=
  if String.eqb label "Total" then i_total_installs installs
  else if String.eqb label "Win" then i_win_installs installs
  else if String.eqb label "Mac" then i_mac_installs installs
  else if String.eqb label "Linux" then i_linux_installs installs
  else None.

(** Lines 172 to 184: the label and the count that one [li] yields, when it
    has both the label span and the counter span. *)
Definition li_entry (li : PageElement) : option (string * Z) :=
  match find (matches "span" ["total"; "platform"]) li with
  | None => None
  | Some (label_span, following) =>
      match find_next_sibling "span" following with
      | None => None
      | Some installs_span =>
          Some (strip (text label_span), installs_count installs_span)
      end
  end.

(** The invariant of the store: every key holds a record of that name with a
    [last_scraped]. *)
Definition store_ok (data : OutputFormat) : Prop :=
  forall pkg r, data !! pkg = Some r ->
                name r = pkg /\ is_Some (last_scraped r).

(** ** Order on [str] *)

Module StrOrder.

Lemma ascii_compare_refl (a : ascii) : Ascii.compare a a = Eq.
Proof. unfold Ascii.compare. apply N.compare_refl. Qed.

Lemma compare_refl (s : string) : String.compare s s = Eq.
Proof.
  induction s as [|a s IH]; simpl; [reflexivity|].
  now rewrite ascii_compare_refl.
Qed.

Lemma compare_Lt_trans (a b c : string) :
  String.compare a b = Lt -> String.compare b c = Lt ->
  String.compare a c = Lt.
Proof.
  revert b c. induction a as [|x a IH]; intros [|y b] [|z c]; simpl;
    try congruence.
  unfold Ascii.compare.
  destruct (N.compare_spec (N_of_ascii x) (N_of_ascii y)) as [Hxy|Hxy|Hxy];
    destruct (N.compare_spec (N_of_ascii y) (N_of_ascii z)) as [Hyz|Hyz|Hyz];
    try congruence; intros H1 H2.
  - rewrite Hxy, Hyz, N.compare_refl. eauto.
  - rewrite Hxy. apply N.compare_lt_iff in Hyz. now rewrite Hyz.
  - rewrite <- Hyz. apply N.compare_lt_iff in Hxy. now rewrite Hxy.
  - assert (N_of_ascii x < N_of_ascii z)%N as H by lia.
    apply N.compare_lt_iff in H. now rewrite H.
Qed.

Lemma ltb_irrefl (s : string) : String.ltb s s = false.
Proof. unfold String.ltb. now rewrite compare_refl. Qed.

Lemma leb_refl (s : string) : String.leb s s = true.
Proof. unfold String.leb. now rewrite compare_refl. Qed.

Lemma ltb_trans (a b c : string) :
  String.ltb a b = true -> String.ltb b c = true -> String.ltb a c = true.
Proof.
  unfold String.ltb. intros H1 H2.
  destruct (String.compare a b) eqn:E1; try discriminate.
  destruct (String.compare b c) eqn:E2; try discriminate.
  now rewrite (compare_Lt_trans a b c).
Qed.

(** [not (y < x)] is [x <= y]: the order is total. *)
Lemma ltb_false_leb (x y : string) :
  String.ltb y x = false <-> String.leb x y = true.
Proof.
  unfold String.ltb, String.leb. rewrite (String.compare_antisym x y).
  destruct (String.compare y x); simpl; split; congruence.
Qed.

Lemma ltb_leb (x y : string) : String.ltb x y = true -> String.leb x y = true.
Proof.
  unfold String.ltb, String.leb. destruct (String.compare x y); congruence.
Qed.

Lemma leb_cases (x y : string) :
  String.leb x y = true <-> x = y \/ String.ltb x y = true.
Proof.
  unfold String.ltb, String.leb. split.
  - destruct (String.compare x y) eqn:E; try discriminate; auto.
    left. now apply String.compare_eq_iff.
  - intros [->|H]; [now rewrite compare_refl|].
    destruct (String.compare x y); congruence.
Qed.

Lemma leb_trans (a b c : string) :
  String.leb a b = true -> String.leb b c = true -> String.leb a c = true.
Proof.
  rewrite !leb_cases. intros [->|H1] [->|H2]; auto.
  right. eauto using ltb_trans.
Qed.

Lemma leb_ltb_trans (a b c : string) :
  String.leb a b = true -> String.ltb b c = true -> String.ltb a c = true.
Proof. rewrite leb_cases. intros [->|H1] H2; eauto using ltb_trans. Qed.

Lemma ltb_not_leb (x y : string) :
  String.ltb x y = true -> String.leb y x = true -> False.
Proof.
  intros H1 H2. apply ltb_false_leb in H2. congruence.
Qed.

End StrOrder.

(** ** Facts about [sorted] and slicing *)

Section SortedFacts.
Context {A : Type} (key : A -> string).

Lemma insert_by_key_perm (x : A) (l : list A) :
  Permutation (insert_by_key key x l) (x :: l).
Proof.
  induction l as [|y l IH]; simpl; [reflexivity|].
  destruct (String.ltb (key y) (key x)); [|reflexivity].
  rewrite IH. apply perm_swap.
Qed.

Lemma sorted_perm (l : list A) : Permutation (sorted key l) l.
Proof.
  induction l as [|x l IH]; simpl; [reflexivity|].
  rewrite insert_by_key_perm. now constructor.
Qed.

Lemma insert_by_key_sorted (x : A) (l : list A) :
  StronglySorted (fun a b => String.leb (key a) (key b) = true) l ->
  StronglySorted (fun a b => String.leb (key a) (key b) = true)
    (insert_by_key key x l).
Proof.
  induction 1 as [|y l Hs IH Hy]; simpl.
  - constructor; [constructor|constructor].
  - destruct (String.ltb (key y) (key x)) eqn:E.
    + constructor; [exact IH|].
      rewrite insert_by_key_perm. constructor; [|exact Hy].
      now apply StrOrder.ltb_leb.
    + apply StrOrder.ltb_false_leb in E.
      constructor; [now constructor|].
      constructor; [exact E|].
      eapply Forall_impl; [exact Hy|]. simpl.
      intros z Hz. eapply StrOrder.leb_trans; eassumption.
Qed.

Lemma sorted_sorted (l : list A) :
  StronglySorted (fun a b => String.leb (key a) (key b) = true) (sorted key l).
Proof.
  induction l as [|x l IH]; simpl; [constructor|].
  now apply insert_by_key_sorted.
Qed.

(** Stability: the items of one key keep the order they had. *)
Lemma insert_by_key_stable (k : string) (x : A) (l : list A) :
  List.filter (fun a => String.eqb (key a) k) (insert_by_key key x l)
  = List.filter (fun a => String.eqb (key a) k) (x :: l).
Proof.
  induction l as [|y l IH]; [reflexivity|].
  simpl insert_by_key.
  destruct (String.ltb (key y) (key x)) eqn:E; [|reflexivity].
  cbn [List.filter].
  destruct (String.eqb_spec (key y) k) as [Hy|Hy]; rewrite IH; cbn [List.filter];
    destruct (String.eqb_spec (key x) k) as [Hx|Hx]; try reflexivity.
  rewrite Hy, Hx, StrOrder.ltb_irrefl in E. discriminate.
Qed.

Lemma sorted_stable (k : string) (l : list A) :
  List.filter (fun a => String.eqb (key a) k) (sorted key l)
  = List.filter (fun a => String.eqb (key a) k) l.
Proof.
  induction l as [|x l IH]; [reflexivity|].
  simpl sorted. rewrite insert_by_key_stable. simpl. now rewrite IH.
Qed.

Lemma strongly_sorted_take (R : A -> A -> Prop) (n : nat) (l : list A) :
  StronglySorted R l -> StronglySorted R (take n l).
Proof.
  intros Hs. revert n. induction Hs as [|x l Hs IH Hx]; intros [|n]; simpl;
    try constructor; auto using Forall_take.
Qed.

Lemma strongly_sorted_lookup (R : A -> A -> Prop) (l : list A) (i j : nat) (a b : A) :
  StronglySorted R l -> l !! i = Some a -> l !! j = Some b -> (i < j)%nat -> R a b.
Proof.
  intros Hs. revert i j. induction Hs as [|x l Hs IH Hx]; intros i j Hi Hj Hlt.
  - discriminate.
  - destruct j as [|j]; [lia|]. destruct i as [|i]; simpl in *.
    + injection Hi as <-. rewrite Forall_forall in Hx. apply Hx.
      eapply list_elem_of_lookup_2. exact Hj.
    + eapply IH; eauto. lia.
Qed.

Lemma List_filter_sublist (f : A -> bool) (l : list A) :
  List.filter f l `sublist_of` l.
Proof.
  induction l as [|x l IH]; simpl; [constructor|].
  destruct (f x); now constructor.
Qed.

Lemma slice_to_sublist (l : list A) (limit : option Z) :
  slice_to l limit `sublist_of` l.
Proof.
  destruct limit as [k|]; simpl; [|reflexivity].
  destruct (0 <=? k); apply sublist_take.
Qed.

End SortedFacts.

(** ** Facts about [merge] *)

Lemma merge_snoc (data : OutputFormat) (rs : list PackageInfo) (r : PackageInfo) :
  merge data (rs ++ [r]) = <[name r := r]> (merge data rs).
Proof. unfold merge. now rewrite fold_left_app. Qed.

Lemma merge_app (data : OutputFormat) (rs1 rs2 : list PackageInfo) :
  merge data (rs1 ++ rs2) = merge (merge data rs1) rs2.
Proof. unfold merge. now rewrite fold_left_app. Qed.

Lemma merge_lookup_other (data : OutputFormat) (rs : list PackageInfo) (pkg : Name) :
  (forall r, r ∈ rs -> name r <> pkg) ->
  merge data rs !! pkg = data !! pkg.
Proof.
  induction rs as [|r rs IH] using rev_ind; intros Hrs; [reflexivity|].
  rewrite merge_snoc, lookup_insert_ne.
  - apply IH. intros r' Hr'. apply Hrs. apply elem_of_app. now left.
  - apply Hrs. apply elem_of_app. right. now apply list_elem_of_singleton.
Qed.

Lemma merge_lookup_last_written (data : OutputFormat)
    (before after : list PackageInfo) (r : PackageInfo) :
  (forall r', r' ∈ after -> name r' <> name r) ->
  merge data (before ++ r :: after) !! name r = Some r.
Proof.
  intros Hafter.
  change (before ++ r :: after) with (before ++ [r] ++ after).
  rewrite app_assoc, merge_app, merge_lookup_other by exact Hafter.
  rewrite merge_snoc. apply lookup_insert_eq.
Qed.

(** The entry of a name after the merge is the last record of the run that
    carries the name, and the earlier entry when there is none. *)
Lemma merge_lookup (data : OutputFormat) (rs : list PackageInfo) (pkg : Name) :
  merge data rs !! pkg =
  match last (List.filter (fun r => String.eqb (name r) pkg) rs) with
  | Some r => Some r
  | None => data !! pkg
  end.
Proof.
  induction rs as [|r rs IH] using rev_ind; [reflexivity|].
  rewrite merge_snoc, List.filter_app. simpl.
  destruct (String.eqb_spec (name r) pkg) as [<-|Hne].
  - now rewrite lookup_insert_eq, last_snoc.
  - rewrite lookup_insert_ne by exact Hne. now rewrite app_nil_r.
Qed.

(** ** Facts about the fetcher *)

Lemma fetch_package_soft (status : Z) (soup : Soup) (pkg : Name) (now : IsoTimestamp) :
  status <> 200 ->
  fetch_package (Completed status soup) pkg now =
  Some {| name := pkg; first_seen := None;
          total_installs := None; win_installs := None;
          mac_installs := None; linux_installs := None;
          last_scraped := Some now;
          fail_reason := Some (Some ("HTTP " +:+ pretty status)) |}.
Proof.
  intros Hs. unfold fetch_package.
  destruct (Z.eqb_spec status 200) as [E|E]; [contradiction|reflexivity].
Qed.

Lemma fetch_package_name (resp : Response) (pkg : Name) (now : IsoTimestamp)
    (r : PackageInfo) :
  fetch_package resp pkg now = Some r ->
  name r = pkg /\ last_scraped r = Some now.
Proof.
  unfold fetch_package. destruct resp as [|status soup]; [discriminate|].
  destruct (negb (status =? 200)); intros [= <-]; auto.
Qed.

(** ** Facts about the [str] methods *)

#[local] Arguments String.append : simpl nomatch.

Lemma append_assoc (a b c : string) : (a +:+ b) +:+ c = a +:+ (b +:+ c).
Proof. induction a as [|x a IH]; simpl; [reflexivity|]. now rewrite IH. Qed.

Lemma replace_app (old : ascii) (new a b : string) :
  replace old new (a +:+ b) = replace old new a +:+ replace old new b.
Proof.
  induction a as [|c a IH]; simpl; [reflexivity|].
  destruct (Ascii.eqb c old); simpl; rewrite IH; [|reflexivity].
  now rewrite append_assoc.
Qed.

Lemma replace_absent (old : ascii) (new s : string) :
  occurs old s = false -> replace old new s = s.
Proof.
  induction s as [|c s IH]; simpl; [reflexivity|].
  intros [Hc Hs]%orb_false_iff. rewrite Hc. now rewrite IH.
Qed.

Lemma replace_removes (old : ascii) (s : string) :
  occurs old (replace old "" s) = false.
Proof.
  induction s as [|c s IH]; simpl; [reflexivity|].
  destruct (Ascii.eqb c old) eqn:E; simpl; [exact IH|].
  now rewrite E, IH.
Qed.





(** ** Document fetcher: soft failures *)

(** C3.  A request that completes with a status other than 200 yields a
    record that holds the name, [last_scraped] equal to the timestamp of the
    run and [fail_reason] equal to ["HTTP "] followed by the status in
    decimal, and nothing else: neither [first_seen] nor any of the four
    install counts is a key of it. *)
Theorem soft_failure_record (status : Z) (soup : Soup) (pkg : Name)
    (now : IsoTimestamp) :
  status <> 200 ->
  fetch_package (Completed status soup) pkg now =
  Some {| name := pkg;
          first_seen := None;
          total_installs := None;
          win_installs := None;
          mac_installs := None;
          linux_installs := None;
          last_scraped := Some now;
          fail_reason := Some (Some ("HTTP " +:+ pretty status)) |}.
Proof. apply fetch_package_soft. Qed.

(** ** Field extractor *)


Lemma parse_installs_li_get (label : string) (installs : Installs)
    (li : PageElement) :
  label = "Total" \/ label = "Win" \/ label = "Mac" \/ label = "Linux" ->
  installs_get label (parse_installs_li installs li)
  = match li_entry li with
    | Some (l, c) => if String.eqb l label then Some c
                     else installs_get label installs
    | None => installs_get label installs
    end.
Proof.
  intros Hlabel. unfold parse_installs_li, li_entry.
  destruct (find _ li) as [[label_span following]|]; [|reflexivity].
  destruct (find_next_sibling _ following) as [installs_span|]; [|reflexivity].
  generalize (strip (text label_span)) as l. intros l.
  destruct Hlabel as [->|[->|[->| ->]]];
    destruct (String.eqb_spec l "Total") as [->|?]; try reflexivity;
    destruct (String.eqb_spec l "Win") as [->|?]; try reflexivity;
    destruct (String.eqb_spec l "Mac") as [->|?]; try reflexivity;
    destruct (String.eqb_spec l "Linux") as [->|?]; reflexivity.
Qed.

Lemma fold_parse_installs_get (label : string) (lis : list PageElement)
    (installs : Installs) :
  label = "Total" \/ label = "Win" \/ label = "Mac" \/ label = "Linux" ->
  installs_get label (fold_left parse_installs_li lis installs)
  = match last (List.filter (fun e => String.eqb (fst e) label)
                  (omap li_entry lis)) with
    | Some e => Some (snd e)
    | None => installs_get label installs
    end.
Proof.
  intros Hlabel. induction lis as [|li lis IH] using rev_ind; [reflexivity|].
  rewrite fold_left_app, omap_app, List.filter_app. simpl fold_left.
  rewrite (parse_installs_li_get label _ li Hlabel), IH. simpl.
  destruct (li_entry li) as [[l c]|]; simpl.
  - destruct (String.eqb l label); simpl.
    + now rewrite last_snoc.
    + now rewrite app_nil_r.
  - now rewrite app_nil_r.
Qed.

Lemma parse_installs_li_unrecognised (installs : Installs) (li : PageElement) :
  (forall l c, li_entry li = Some (l, c) ->
               l <> "Total" /\ l <> "Win" /\ l <> "Mac" /\ l <> "Linux") ->
  parse_installs_li installs li = installs.
Proof.
  unfold parse_installs_li, li_entry.
  destruct (find _ li) as [[label_span following]|]; [|reflexivity].
  destruct (find_next_sibling _ following) as [installs_span|]; [|reflexivity].
  intros H. destruct (H _ _ eq_refl) as (H1 & H2 & H3 & H4).
  apply String.eqb_neq in H1, H2, H3, H4. now rewrite H1, H2, H3, H4.
Qed.

Lemma installs_count_comma (a b : string) (class_ : list string)
    (contents : list PageElement) :
  installs_count (Tag "span" class_ (Some (a +:+ "," +:+ b)) contents)
  = installs_count (Tag "span" class_ (Some (a +:+ b)) contents).
Proof.
  unfold installs_count. cbn [attrs_get_title from_option id].
  rewrite !replace_app. reflexivity.
Qed.

(** C9.  For each of the four labels [Total], [Win], [Mac] and [Linux], the
    field that [parse_installs] reports is the count of the last [li] child
    whose stripped label is that label, and the field is absent when there
    is none; an [li] with any other label, or without label or counter,
    can be removed from the list without changing the result.  The count is
    the counter's [title] read as an integer once its commas are removed,
    wherever the commas stand, and 0 when that text is not an integer.  For
    the entries Total=1,234, Win=900 and Linux-beta=5 the result is
    [total_installs = 1234], [win_installs = 900] and no other field. *)
Theorem installs_extraction (installs : Installs) (li ul : PageElement) :
  parse_installs sample_installs_ul
  = {| i_total_installs := Some 1234; i_win_installs := Some 900;
       i_mac_installs := None; i_linux_installs := None |}
  /\ (forall label,
         label = "Total" \/ label = "Win" \/ label = "Mac" \/ label = "Linux" ->
         installs_get label (parse_installs ul)
         = snd <$> last (List.filter (fun e => String.eqb (fst e) label)
                           (omap li_entry (find_all_children "li" ul))))
  /\ (forall nm class_ title before after,
         (forall l c, li_entry li = Some (l, c) ->
                      l <> "Total" /\ l <> "Win" /\ l <> "Mac" /\ l <> "Linux") ->
         parse_installs (Tag nm class_ title (before ++ li :: after))
         = parse_installs (Tag nm class_ title (before ++ after)))
  /\ (forall a b class_ contents,
         installs_count (Tag "span" class_ (Some (a +:+ "," +:+ b)) contents)
         = installs_count (Tag "span" class_ (Some (a +:+ b)) contents))
  /\ (forall label_span following installs_span,
         find (matches "span" ["total"; "platform"]) li
         = Some (label_span, following) ->
         find_next_sibling "span" following = Some installs_span ->
         let label := strip (text label_span) in
         let count := installs_count installs_span in
         (label = "Total" ->
          parse_installs_li installs li
          = {| i_total_installs := Some count;
               i_win_installs := i_win_installs installs;
               i_mac_installs := i_mac_installs installs;
               i_linux_installs := i_linux_installs installs |})
         /\ (label = "Win" ->
             parse_installs_li installs li
             = {| i_total_installs := i_total_installs installs;
                  i_win_installs := Some count;
                  i_mac_installs := i_mac_installs installs;
                  i_linux_installs := i_linux_installs installs |})
         /\ (label = "Mac" ->
             parse_installs_li installs li
             = {| i_total_installs := i_total_installs installs;
                  i_win_installs := i_win_installs installs;
                  i_mac_installs := Some count;
                  i_linux_installs := i_linux_installs installs |})
         /\ (label = "Linux" ->
             parse_installs_li installs li
             = {| i_total_installs := i_total_installs installs;
                  i_win_installs := i_win_installs installs;
                  i_mac_installs := i_mac_installs installs;
                  i_linux_installs := Some count |})
         /\ (label <> "Total" -> label <> "Win" -> label <> "Mac" ->
             label <> "Linux" ->
             parse_installs_li installs li = installs))
  /\ (find (matches "span" ["total"; "platform"]) li = None ->
      parse_installs_li installs li = installs)
  /\ (forall label_span following,
         find (matches "span" ["total"; "platform"]) li
         = Some (label_span, following) ->
         find_next_sibling "span" following = None ->
         parse_installs_li installs li = installs)
  /\ (forall installs_span,
         let digits :=
           replace "," "" (default "0" (attrs_get_title installs_span)) in
         occurs "," digits = false
         /\ (int digits = None -> installs_count installs_span = 0)
         /\ (forall n, int digits = Some n -> installs_count installs_span = n))
  /\ installs_count (span ["installs"] (Some "1,234") "1,234") = 1234
  /\ installs_count (span ["installs"] (Some "n/a") "n/a") = 0.
Proof.
  split; [reflexivity|]. split.
  { intros label Hlabel. unfold parse_installs.
    rewrite (fold_parse_installs_get label _ _ Hlabel).
    destruct (last _); [reflexivity|].
    destruct Hlabel as [->|[->|[->| ->]]]; reflexivity. }
  split.
  { intros nm class_ title before after Hskip. unfold parse_installs.
    cbn [find_all_children]. rewrite !List.filter_app. cbn [List.filter].
    destruct (has_name "li" li); [|reflexivity].
    rewrite !fold_left_app. cbn [fold_left].
    now rewrite (parse_installs_li_unrecognised _ li Hskip). }
  split; [apply installs_count_comma|]. split.
  { intros label_span following installs_span Hfind Hnext label count.
    unfold parse_installs_li. rewrite Hfind, Hnext.
    fold label. fold count.
    repeat split.
    - intros ->. reflexivity.
    - intros ->. reflexivity.
    - intros ->. reflexivity.
    - intros ->. reflexivity.
    - intros H1 H2 H3 H4.
      apply String.eqb_neq in H1, H2, H3, H4. now rewrite H1, H2, H3, H4. }
  split. { intros Hfind. unfold parse_installs_li. now rewrite Hfind. }
  split. { intros ? ? Hfind Hnext. unfold parse_installs_li.
           now rewrite Hfind, Hnext. }
  split; [|split; reflexivity].
  intros installs_span digits. split; [apply replace_removes|].
  unfold installs_count. fold digits. split.
  - now intros ->.
  - now intros n ->.
Qed.

(** ** Properties of the staleness selector *)

Lemma age_key_absent (store : OutputFormat) (pkg : Name) :
  store !! pkg = None -> age_key store pkg = epoch.
Proof. unfold age_key. now intros ->. Qed.

Lemma age_key_stored (store : OutputFormat) (pkg : Name) (info : PackageInfo)
    (t : IsoTimestamp) :
  store !! pkg = Some info -> last_scraped info = Some t -> age_key store pkg = t.
Proof. unfold age_key. now intros -> ->. Qed.

Lemma packages_sorted_by_age_perm (L : list Name) (store : OutputFormat)
    (threshold : IsoTimestamp) :
  Permutation (packages_sorted_by_age L store threshold)
    (List.filter (fun pkg => String.leb (age_key store pkg) threshold) L).
Proof. apply sorted_perm. Qed.

Lemma packages_sorted_by_age_elem (L : list Name) (store : OutputFormat)
    (threshold : IsoTimestamp) (pkg : Name) :
  pkg ∈ packages_sorted_by_age L store threshold
  <-> pkg ∈ L /\ String.leb (age_key store pkg) threshold = true.
Proof.
  rewrite packages_sorted_by_age_perm, list_elem_of_In, List.filter_In.
  now rewrite <- list_elem_of_In.
Qed.

Lemma List_filter_all {A} (f : A -> bool) (l : list A) :
  (forall x, x ∈ l -> f x = true) -> List.filter f l = l.
Proof.
  induction l as [|x l IH]; intros H; simpl; [reflexivity|].
  rewrite (H x) by constructor. f_equal. apply IH.
  intros y Hy. apply H. now constructor.
Qed.

Section RunProperties.

Context {hours : Type}.
Variable truthy : hours -> bool.
Variable now_string : IsoTimestamp.
Variable hours_before_now : hours -> IsoTimestamp.
Variable as_completed : list (option PackageInfo) -> list (option PackageInfo).
Hypothesis as_completed_perm : forall tasks, Permutation tasks (as_completed tasks).
Variable session : nat -> Name -> Response.

Local Abbreviation if_older_than_' :=
  (if_older_than_ truthy now_string hours_before_now).
Local Abbreviation to_scrape' := (to_scrape truthy now_string hours_before_now).
Local Abbreviation results' := (results now_string as_completed session).
Local Abbreviation main' :=
  (main truthy now_string hours_before_now as_completed session).

(** C6.  Whatever the store, the names, the threshold and the budget, the
    selected names are names of the input (none more often than the input
    has it), they are in non-decreasing order of age key, the selection is
    the first [k] names of the ordered list when the budget is a count [k]
    and the whole ordered list when there is no budget, and a name without
    a store entry stands before every name whose entry holds a timestamp
    later than the epoch sentinel. *)
Theorem selection_subset_sorted_truncated (store : OutputFormat) (L : list Name)
    (limit : option Z) (if_older_than : option hours) :
  to_scrape' L store limit if_older_than ⊆+ L
  /\ StronglySorted
       (fun a b => String.leb (age_key store a) (age_key store b) = true)
       (to_scrape' L store limit if_older_than)
  /\ (forall k, limit = Some k -> 0 <= k ->
        to_scrape' L store limit if_older_than
        = take (Z.to_nat k)
            (packages_sorted_by_age L store (if_older_than_' if_older_than))
        /\ Z.of_nat (length (to_scrape' L store limit if_older_than)) <= k)
  /\ (limit = None ->
        to_scrape' L store limit if_older_than
        = packages_sorted_by_age L store (if_older_than_' if_older_than))
  /\ (forall pkg, store !! pkg = None -> age_key store pkg = epoch)
  /\ (forall pkg info t, store !! pkg = Some info -> last_scraped info = Some t ->
        age_key store pkg = t)
  /\ (forall i j a b info t,
        to_scrape' L store limit if_older_than !! i = Some a ->
        to_scrape' L store limit if_older_than !! j = Some b ->
        store !! a = None ->
        store !! b = Some info -> last_scraped info = Some t ->
        String.ltb epoch t = true ->
        (i < j)%nat).
Proof.
  assert (StronglySorted
            (fun a b => String.leb (age_key store a) (age_key store b) = true)
            (to_scrape' L store limit if_older_than)) as Hsorted.
  { unfold to_scrape, slice_to, packages_sorted_by_age.
    destruct limit as [k|]; [destruct (0 <=? k)|];
      try apply strongly_sorted_take; apply sorted_sorted. }
  split; [|split; [exact Hsorted|]].
  { unfold to_scrape. etrans.
    - apply sublist_submseteq, slice_to_sublist.
    - rewrite packages_sorted_by_age_perm.
      apply sublist_submseteq, List_filter_sublist. }
  split.
  { intros k -> Hk. unfold to_scrape, slice_to.
    destruct (Z.leb_spec 0 k) as [_|?]; [|lia]. split; [reflexivity|].
    rewrite length_take. lia. }
  split. { now intros ->. }
  split. { apply age_key_absent. }
  split. { apply age_key_stored. }
  intros i j a b info t Hi Hj Ha Hb Ht Hlt.
  destruct (decide (i < j)%nat) as [|Hge]; [assumption|exfalso].
  assert (i <> j) as Hne.
  { intros ->. rewrite Hi in Hj. injection Hj as ->. congruence. }
  assert (j < i)%nat as Hji by lia.
  pose proof (strongly_sorted_lookup _ _ j i b a Hsorted Hj Hi Hji) as Hle.
  simpl in Hle.
  rewrite (age_key_absent _ _ Ha), (age_key_stored _ _ _ _ Hb Ht) in Hle.
  eapply StrOrder.ltb_not_leb; eassumption.
Qed.

(** C5, as amended.  Without a threshold, and with a threshold of zero, the
    cut-off is the timestamp of the run; with any other threshold it is the
    timestamp of the run minus that many hours.  In every run the selector
    keeps exactly the input names whose age key is at most the cut-off;
    without a threshold these are the names whose age key is at most the
    timestamp of the run, hence all the input names when no stored
    [last_scraped] is later than it. *)
Theorem selection_without_threshold (store : OutputFormat) (L : list Name) :
  if_older_than_' None = now_string
  /\ (forall h, truthy h = false -> if_older_than_' (Some h) = now_string)
  /\ (forall h, truthy h = true ->
        if_older_than_' (Some h) = hours_before_now h
        /\ forall pkg,
             pkg ∈ packages_sorted_by_age L store (if_older_than_' (Some h))
             <-> pkg ∈ L
                 /\ String.leb (age_key store pkg) (hours_before_now h) = true)
  /\ (forall if_older_than pkg,
        pkg ∈ packages_sorted_by_age L store (if_older_than_' if_older_than)
        <-> pkg ∈ L
            /\ String.leb (age_key store pkg) (if_older_than_' if_older_than) = true)
  /\ Permutation
       (packages_sorted_by_age L store (if_older_than_' None))
       (List.filter (fun pkg => String.leb (age_key store pkg) now_string) L)
  /\ ((forall pkg, pkg ∈ L -> String.leb (age_key store pkg) now_string = true) ->
      Permutation (packages_sorted_by_age L store (if_older_than_' None)) L).
Proof.
  split; [reflexivity|]. split.
  { intros h Hh. simpl. now rewrite Hh. }
  split.
  { intros h Hh.
    assert (if_older_than_' (Some h) = hours_before_now h) as E
      by (simpl; now rewrite Hh).
    split; [exact E|]. intros pkg. rewrite E.
    apply packages_sorted_by_age_elem. }
  split. { intros. apply packages_sorted_by_age_elem. }
  split. { apply packages_sorted_by_age_perm. }
  intros Hall. rewrite packages_sorted_by_age_perm. simpl.
  now rewrite List_filter_all.
Qed.

(** ** The records of a run *)

Lemma results_elem (names : list Name) (r : PackageInfo) :
  r ∈ results' names
  <-> exists i pkg, names !! i = Some pkg
                    /\ fetch_package (session i pkg) pkg now_string = Some r.
Proof using as_completed_perm.
  unfold results. rewrite list_elem_of_omap. split.
  - intros (x & Hx & Hr). simpl in Hr. subst x.
    rewrite <- as_completed_perm in Hx.
    apply elem_of_lookup_imap in Hx as (i & pkg & Hf & Hi). eauto.
  - intros (i & pkg & Hi & Hf). exists (Some r). split; [|reflexivity].
    rewrite <- as_completed_perm. apply elem_of_lookup_imap. eauto.
Qed.

Lemma results_name (names : list Name) (r : PackageInfo) :
  r ∈ results' names -> name r ∈ names /\ last_scraped r = Some now_string.
Proof using as_completed_perm.
  intros (i & pkg & Hi & Hf)%results_elem.
  apply fetch_package_name in Hf as [-> ?]. split; [|assumption].
  eapply list_elem_of_lookup_2. exact Hi.
Qed.


Lemma results_single (pkg : Name) :
  results' [pkg]
  = match fetch_package (session 0%nat pkg) pkg now_string with
    | Some r => [r]
    | None => []
    end.
Proof using as_completed_perm.
  unfold results. simpl imap.
  pose proof (as_completed_perm [fetch_package (session 0%nat pkg) pkg now_string]) as H.
  apply Permutation_singleton_l in H. rewrite <- H. simpl.
  now destruct (fetch_package _ _ _).
Qed.

(** C7.  Names with the same age key come out of the selector in the order
    in which the input lists them.  With a registry that lists A then B, no
    earlier store, a budget of 1 and no threshold, in a run whose timestamp
    is not before the epoch sentinel, the selection is exactly A, only A is
    fetched, the store is saved and holds no entry for B. *)
Theorem stable_tiebreak (store : OutputFormat) (L : list Name)
    (threshold key : IsoTimestamp) (output : OutputFile) :
  String.leb epoch now_string = true ->
  load_existing_data output = Some ∅ ->
  List.filter (fun pkg => String.eqb (age_key store pkg) key)
    (packages_sorted_by_age L store threshold)
  = List.filter (fun pkg => String.eqb (age_key store pkg) key)
      (List.filter (fun pkg => String.leb (age_key store pkg) threshold) L)
  /\ to_scrape' ["A"; "B"] ∅ (Some 1) None = ["A"]
  /\ results' ["A"]
     = match fetch_package (session 0%nat "A") "A" now_string with
       | Some r => [r]
       | None => []
       end
  /\ main' (RegistryLoaded (Some ["A"; "B"])) output (Some 1) None
     = ExitSaved (merge ∅ (results' ["A"]))
  /\ merge ∅ (results' ["A"]) !! "B" = None.
Proof using as_completed_perm.
  intros Hnow Hload.
  assert (to_scrape' ["A"; "B"] ∅ (Some 1) None = ["A"]) as Hsel.
  { unfold to_scrape, packages_sorted_by_age, if_older_than_. simpl List.filter.
    rewrite !(age_key_absent ∅) by apply lookup_empty. rewrite Hnow.
    simpl. rewrite !(age_key_absent ∅) by apply lookup_empty.
    now rewrite StrOrder.ltb_irrefl. }
  split; [apply sorted_stable|]. split; [exact Hsel|].
  split; [apply results_single|]. split.
  - unfold main. rewrite Hload. simpl default. now rewrite Hsel.
  - rewrite merge_lookup_other; [apply lookup_empty|].
    intros r [Hr _]%results_name. apply list_elem_of_singleton in Hr.
    rewrite Hr. discriminate.
Qed.

(** ** Merge and persist *)

(** C1.  Merging puts each record of the run, whole, at its name: right
    after a record is merged the entry of its name is that record, and it
    still is at the end of the merge unless a later record of the run has
    the same name.  After the merge the entry of a name is the last record
    of the run with that name, and the earlier entry when the run has no
    record with that name.  A soft-failure record merged over an entry that
    had install counts leaves an entry with [fail_reason] set and with
    neither install counts nor [first_seen]. *)
Theorem merge_replaces_per_name (existing_data : OutputFormat)
    (rs : list PackageInfo) :
  (forall before r after, rs = before ++ r :: after ->
     merge existing_data (before ++ [r]) !! name r = Some r
     /\ ((forall r', r' ∈ after -> name r' <> name r) ->
         merge existing_data rs !! name r = Some r))
  /\ (forall pkg,
        merge existing_data rs !! pkg
        = match last (List.filter (fun r => String.eqb (name r) pkg) rs) with
          | Some r => Some r
          | None => existing_data !! pkg
          end)
  /\ (forall pkg, (forall r, r ∈ rs -> name r <> pkg) ->
        merge existing_data rs !! pkg = existing_data !! pkg)
  /\ (forall pkg old n status soup now r,
        existing_data !! pkg = Some old -> total_installs old = Some n ->
        status <> 200 ->
        fetch_package (Completed status soup) pkg now = Some r ->
        merge existing_data [r] !! pkg = Some r
        /\ fail_reason r = Some (Some ("HTTP " +:+ pretty status))
        /\ total_installs r = None /\ win_installs r = None
        /\ mac_installs r = None /\ linux_installs r = None
        /\ first_seen r = None).
Proof.
  split; [|split; [|split]].
  - intros before r after ->. split.
    + rewrite merge_snoc. apply lookup_insert_eq.
    + apply merge_lookup_last_written.
  - apply merge_lookup.
  - intros pkg. apply merge_lookup_other.
  - intros pkg old n status soup now r _ _ Hs Hf.
    rewrite (fetch_package_soft status soup pkg now Hs) in Hf.
    injection Hf as <-. simpl. split; [apply lookup_insert_eq|].
    repeat split.
Qed.

(** C2.  When every request made for a name in a run raises, no record of
    the run carries that name, and the entry of that name in the output
    file after the run is the entry it had before the run, with the same
    [last_scraped]. *)
Theorem hard_failure_leaves_entry (packages : option (list Name))
    (output : OutputFile) (existing_data : OutputFormat) (limit : option Z)
    (if_older_than : option hours) (pkg : Name) :
  load_existing_data output = Some existing_data ->
  (forall i,
      to_scrape' (default [] packages) existing_data limit if_older_than !! i
      = Some pkg ->
      session i pkg = Raised) ->
  (forall i,
      to_scrape' (default [] packages) existing_data limit if_older_than !! i
      = Some pkg ->
      fetch_package (session i pkg) pkg now_string = None)
  /\ (forall r,
        r ∈ results'
              (to_scrape' (default [] packages) existing_data limit if_older_than) ->
        name r <> pkg)
  /\ (forall data,
        main' (RegistryLoaded packages) output limit if_older_than
        = ExitSaved data ->
        data !! pkg = existing_data !! pkg)
  /\ (exists data,
        load_existing_data
          (output_after output
             (main' (RegistryLoaded packages) output limit if_older_than))
        = Some data
        /\ data !! pkg = existing_data !! pkg
        /\ (data !! pkg ≫= last_scraped) = (existing_data !! pkg ≫= last_scraped)).
Proof using as_completed_perm.
  intros Hload Hraised.
  assert (forall r,
             r ∈ results'
                   (to_scrape' (default [] packages) existing_data limit if_older_than) ->
             name r <> pkg) as Hnone.
  { intros r (i & pkg' & Hi & Hf)%results_elem Hname.
    pose proof (fetch_package_name _ _ _ _ Hf) as [Hn _].
    rewrite Hname in Hn. subst pkg'.
    rewrite (Hraised i Hi) in Hf. discriminate. }
  assert (forall data,
             main' (RegistryLoaded packages) output limit if_older_than
             = ExitSaved data ->
             data !! pkg = existing_data !! pkg) as Hsaved.
  { intros data. unfold main. rewrite Hload.
    destruct (to_scrape' _ _ _ _) eqn:E; [destruct if_older_than|];
      try discriminate; destruct (existsb quote_raises _); try discriminate;
      intros [= <-]; now apply merge_lookup_other. }
  split; [|split; [exact Hnone|split; [exact Hsaved|]]].
  - intros i Hi. now rewrite (Hraised i Hi).
  - destruct (main' (RegistryLoaded packages) output limit if_older_than)
      as [| | |data] eqn:E; simpl.
    + exists existing_data. auto.
    + exists existing_data. auto.
    + exists existing_data. auto.
    + exists data. rewrite (Hsaved data eq_refl). auto.
Qed.


(** C10.  A record that [fetch_package] produces carries the name it was
    asked for and the timestamp it was given; it is either a soft-failure
    record, with exactly [name], [last_scraped] and [fail_reason], or a
    success record, with [first_seen] and without [fail_reason]; a record
    with [fail_reason] has neither [first_seen] nor an install count.  Every
    record of a run carries the timestamp of the run.  A success record
    merged over an entry that had a [fail_reason] leaves an entry without
    one.  Every entry of the merged store is an entry the store already had
    or a record of the run, whose [last_scraped] is the timestamp of the
    run. *)
Theorem run_records_invariant (existing_data : OutputFormat)
    (names : list Name) :
  (forall resp pkg now r,
      fetch_package resp pkg now = Some r ->
      name r = pkg /\ last_scraped r = Some now
      /\ ((exists status soup,
              resp = Completed status soup /\ status <> 200
              /\ r = {| name := pkg; first_seen := None;
                        total_installs := None; win_installs := None;
                        mac_installs := None; linux_installs := None;
                        last_scraped := Some now;
                        fail_reason := Some (Some ("HTTP " +:+ pretty status)) |})
          \/ (exists soup,
                 resp = Completed 200 soup /\ fail_reason r = None
                 /\ is_Some (first_seen r)))
      /\ (fail_reason r <> None ->
          first_seen r = None /\ total_installs r = None
          /\ win_installs r = None /\ mac_installs r = None
          /\ linux_installs r = None))
  /\ (forall r, r ∈ results' names -> last_scraped r = Some now_string)
  /\ (forall pkg old reason soup now r,
        existing_data !! pkg = Some old -> fail_reason old = Some reason ->
        fetch_package (Completed 200 soup) pkg now = Some r ->
        merge existing_data [r] !! pkg = Some r /\ fail_reason r = None)
  /\ (forall pkg entry,
        merge existing_data (results' names) !! pkg = Some entry ->
        existing_data !! pkg = Some entry
        \/ (entry ∈ results' names /\ name entry = pkg
            /\ last_scraped entry = Some now_string)).
Proof using as_completed_perm.
  split; [|split; [|split]].
  - intros resp pkg now r Hf.
    destruct (fetch_package_name _ _ _ _ Hf) as [Hn Hl].
    split; [exact Hn|]. split; [exact Hl|].
    destruct resp as [|status soup]; [discriminate|].
    destruct (Z.eq_dec status 200) as [->|Hs].
    + simpl in Hf. injection Hf as <-. simpl. split.
      * right. exists soup. repeat split. eexists. reflexivity.
      * intros H. contradiction.
    + rewrite (fetch_package_soft status soup pkg now Hs) in Hf.
      injection Hf as <-. simpl. split.
      * left. exists status, soup. repeat split. exact Hs.
      * intros _. repeat split.
  - intros r Hr. now apply results_name in Hr.
  - intros pkg old reason soup now r _ _ Hf.
    destruct (fetch_package_name _ _ _ _ Hf) as [Hn _].
    simpl. rewrite <- Hn at 1. split; [apply lookup_insert_eq|].
    simpl in Hf. now injection Hf as <-.
  - intros pkg entry. rewrite merge_lookup.
    destruct (last _) as [r|] eqn:E; [|now left].
    intros [= ->]. right.
    apply last_Some_elem_of, list_elem_of_In, List.filter_In in E as [Hin Hname].
    apply list_elem_of_In in Hin. apply String.eqb_eq in Hname.
    split; [exact Hin|]. split; [exact Hname|].
    now apply results_name in Hin.
Qed.

End RunProperties.

(** ** The theorems on sample runs *)

Lemma sample_as_completed_perm (tasks : list (option PackageInfo)) :
  Permutation tasks (sample_as_completed tasks).
Proof. unfold sample_as_completed. symmetry. apply reverse_Permutation. Qed.

Lemma soft_failure_record_witness :
  404 <> 200
  /\ fetch_package (Completed 404 sample_soup) "Y" sample_now
     = Some {| name := "Y"; first_seen := None;
               total_installs := None; win_installs := None;
               mac_installs := None; linux_installs := None;
               last_scraped := Some "2025-05-07 12:00:00";
               fail_reason := Some (Some "HTTP 404") |}.
Proof.
  split; [discriminate|].
  apply (soft_failure_record 404 sample_soup "Y" sample_now). discriminate.
Defined.


Lemma hard_failure_leaves_entry_witness :
  load_existing_data (FileJson sample_store) = Some sample_store
  /\ (forall i,
         to_scrape sample_truthy sample_now sample_hours_before_now
           (default [] (Some ["X"; "Y"])) sample_store (Some 20) None !! i
         = Some "X" ->
         sample_session i "X" = Raised)
  /\ forall data,
       main sample_truthy sample_now sample_hours_before_now
         sample_as_completed sample_session
         (RegistryLoaded (Some ["X"; "Y"])) (FileJson sample_store)
         (Some 20) None
       = ExitSaved data ->
       data !! "X" = sample_store !! "X".
Proof.
  split; [reflexivity|]. split; [intros; reflexivity|].
  apply (hard_failure_leaves_entry sample_truthy sample_now
           sample_hours_before_now sample_as_completed
           sample_as_completed_perm sample_session
           (Some ["X"; "Y"]) (FileJson sample_store) sample_store
           (Some 20) None "X");
    [reflexivity|intros; reflexivity].
Defined.


Lemma stable_tiebreak_witness :
  String.leb epoch sample_now = true
  /\ load_existing_data FileMissing = Some ∅
  /\ to_scrape sample_truthy sample_now sample_hours_before_now
       ["A"; "B"] ∅ (Some 1) None
     = ["A"].
Proof.
  split; [reflexivity|]. split; [reflexivity|].
  apply (stable_tiebreak sample_truthy sample_now sample_hours_before_now
           sample_as_completed sample_as_completed_perm sample_session
           sample_store ["X"; "Y"] sample_now "2025-05-01 08:00:00"
           FileMissing);
    reflexivity.
Defined.

Lemma run_records_invariant_witness :
  last_scraped
    {| name := "Y"; first_seen := None;
       total_installs := None; win_installs := None;
       mac_installs := None; linux_installs := None;
       last_scraped := Some sample_now;
       fail_reason := Some (Some "HTTP 404") |}
  = Some sample_now.
Proof.
  apply (run_records_invariant sample_now sample_as_completed
           sample_as_completed_perm sample_session
           sample_store ["X"; "Y"; "A"]).
  vm_compute. right. left.
Defined.


(** C5 as stated fails.  Without a threshold, a name whose stored
    [last_scraped] is later than the timestamp of the run is not selected. *)
Lemma selection_without_threshold_drops_later :
  "late" ∈ ["late"]
  /\ to_scrape sample_truthy sample_now sample_hours_before_now
       ["late"] sample_later_store None None
     = [].
Proof. split; [constructor|]. vm_compute. reflexivity. Qed.

(** ** More on [merge] *)

Set Warnings "-clear-no-such-hyp".

Lemma merge_lookup_unique (data : OutputFormat) (rs : list PackageInfo)
    (r : PackageInfo) :
  NoDup (name <$> rs) -> r ∈ rs -> merge data rs !! name r = Some r.
Proof.
  intros Hnodup (l1 & l2 & ->)%list_elem_of_split.
  apply merge_lookup_last_written. intros r' Hr' Heq.
  rewrite fmap_app, fmap_cons in Hnodup.
  apply NoDup_app in Hnodup as (_ & _ & Hnodup).
  apply NoDup_cons in Hnodup as [Hnotin _]. apply Hnotin.
  rewrite <- Heq. now apply list_elem_of_fmap_2.
Qed.

Lemma merge_lookup_not_named (data : OutputFormat) (rs : list PackageInfo)
    (pkg : Name) :
  pkg ∉ name <$> rs -> merge data rs !! pkg = data !! pkg.
Proof.
  intros Hnotin. apply merge_lookup_other. intros r Hr <-.
  apply Hnotin. now apply list_elem_of_fmap_2.
Qed.

(** X1.  Merging the records of a run a second time changes nothing. *)
Theorem merge_idempotent (existing_data : OutputFormat)
    (rs : list PackageInfo) :
  merge (merge existing_data rs) rs = merge existing_data rs.
Proof.
  apply map_eq. intros pkg. rewrite (merge_lookup (merge existing_data rs)).
  destruct (last _) as [r|] eqn:E; [|reflexivity].
  now rewrite merge_lookup, E.
Qed.

Lemma merge_permutation (data : OutputFormat) (rs rs' : list PackageInfo) :
  NoDup (name <$> rs) -> Permutation rs rs' -> merge data rs = merge data rs'.
Proof.
  intros Hnodup Hperm. apply map_eq. intros pkg.
  assert (NoDup (name <$> rs')) as Hnodup' by now rewrite <- Hperm.
  destruct (decide (pkg ∈ name <$> rs)) as [Hin|Hnotin].
  - apply list_elem_of_fmap in Hin as (r & -> & Hr).
    rewrite (merge_lookup_unique _ rs) by assumption.
    rewrite (merge_lookup_unique _ rs'); [reflexivity|assumption|].
    now rewrite <- Hperm.
  - rewrite (merge_lookup_not_named _ rs) by assumption.
    rewrite (merge_lookup_not_named _ rs'); [reflexivity|].
    now rewrite <- Hperm.
Qed.

(** X2.  When no two records of a run carry the same name, the merged store
    does not depend on the order in which the records are merged. *)
Theorem merge_order_independent (existing_data : OutputFormat)
    (rs rs' : list PackageInfo) :
  NoDup (name <$> rs) -> Permutation rs rs' ->
  merge existing_data rs = merge existing_data rs'.
Proof. apply merge_permutation. Qed.

(** X3.  The names that have an entry after the merge are the names that had
    one before together with the names of the records of the run: merging
    never removes an entry. *)
Theorem merge_dom (existing_data : OutputFormat) (rs : list PackageInfo) :
  dom (merge existing_data rs)
  = dom existing_data ∪ list_to_set (name <$> rs).
Proof.
  induction rs as [|r rs IH] using rev_ind.
  - simpl. set_solver.
  - rewrite merge_snoc, dom_insert_L, IH, fmap_app, list_to_set_app_L.
    simpl. set_solver.
Qed.

(** ** More on the selection *)

Lemma slice_to_take {A} (l : list A) (limit : option Z) :
  exists n, slice_to l limit = take n l.
Proof.
  destruct limit as [k|]; simpl.
  - destruct (0 <=? k); eexists; reflexivity.
  - exists (length l). now rewrite firstn_all.
Qed.

Lemma submseteq_NoDup_l {A} (l k : list A) : l ⊆+ k -> NoDup k -> NoDup l.
Proof.
  intros [k' Hk']%submseteq_Permutation Hnodup. rewrite Hk' in Hnodup.
  now apply NoDup_app in Hnodup as [? _].
Qed.

Lemma records_names_sublist (f : nat -> Name -> option PackageInfo)
    (names : list Name) :
  (forall i pkg r, f i pkg = Some r -> name r = pkg) ->
  name <$> omap id (imap f names) `sublist_of` names.
Proof.
  revert f. induction names as [|pkg names IH]; intros f Hf; [constructor|].
  rewrite imap_cons. simpl.
  destruct (f 0%nat pkg) as [r|] eqn:E; simpl.
  - rewrite (Hf _ _ _ E). apply sublist_skip, IH.
    intros i pkg' r'. apply Hf.
  - apply sublist_cons, IH. intros i pkg' r'. apply Hf.
Qed.

Section RunExtras.

Context {hours : Type}.
Variable truthy : hours -> bool.
Variable now_string : IsoTimestamp.
Variable hours_before_now : hours -> IsoTimestamp.
Variable as_completed : list (option PackageInfo) -> list (option PackageInfo).
Hypothesis as_completed_perm : forall tasks, Permutation tasks (as_completed tasks).
Variable session : nat -> Name -> Response.

Local Abbreviation if_older_than_' :=
  (if_older_than_ truthy now_string hours_before_now).
Local Abbreviation to_scrape' := (to_scrape truthy now_string hours_before_now).
Local Abbreviation results' := (results now_string as_completed session).
Local Abbreviation main' :=
  (main truthy now_string hours_before_now as_completed session).

Lemma to_scrape_submseteq (L : list Name) (store : OutputFormat)
    (limit : option Z) (if_older_than : option hours) :
  to_scrape' L store limit if_older_than ⊆+ L.
Proof.
  unfold to_scrape. etrans.
  - apply sublist_submseteq, slice_to_sublist.
  - rewrite packages_sorted_by_age_perm.
    apply sublist_submseteq, List_filter_sublist.
Qed.

Lemma results_names_submseteq (names : list Name) :
  name <$> results' names ⊆+ names.
Proof using as_completed_perm.
  unfold results. rewrite <- as_completed_perm.
  apply sublist_submseteq, records_names_sublist.
  intros i pkg r Hf. now apply fetch_package_name in Hf.
Qed.

Lemma main_saved (packages : option (list Name)) (output : OutputFile)
    (existing_data : OutputFormat) (limit : option Z)
    (if_older_than : option hours) (data : OutputFormat) :
  load_existing_data output = Some existing_data ->
  main' (RegistryLoaded packages) output limit if_older_than = ExitSaved data ->
  data = merge existing_data
           (results' (to_scrape' (default [] packages) existing_data limit
                        if_older_than)).
Proof.
  intros Hload. unfold main. rewrite Hload.
  destruct (to_scrape' _ _ _ _); [destruct if_older_than|];
    try discriminate; destruct (existsb quote_raises _); try discriminate;
    now intros [= <-].
Qed.

(** X4.  A name that is not selected in a run gets no record in that run,
    and the store that the run saves holds for it the entry it had
    before. *)
Theorem unselected_entry_kept (packages : option (list Name))
    (output : OutputFile) (existing_data : OutputFormat) (limit : option Z)
    (if_older_than : option hours) (pkg : Name) :
  load_existing_data output = Some existing_data ->
  pkg ∉ to_scrape' (default [] packages) existing_data limit if_older_than ->
  (forall r,
      r ∈ results'
            (to_scrape' (default [] packages) existing_data limit if_older_than) ->
      name r <> pkg)
  /\ (forall data,
        main' (RegistryLoaded packages) output limit if_older_than
        = ExitSaved data ->
        data !! pkg = existing_data !! pkg).
Proof using as_completed_perm.
  intros Hload Hnot.
  assert (forall r,
             r ∈ results'
                   (to_scrape' (default [] packages) existing_data limit
                      if_older_than) ->
             name r <> pkg) as Hnone.
  { intros r Hr <-. apply Hnot.
    eapply results_name; [exact as_completed_perm|exact Hr]. }
  split; [exact Hnone|].
  intros data Hmain. rewrite (main_saved _ _ _ _ _ _ Hload Hmain).
  now apply merge_lookup_other.
Qed.

(** X19.  A name that the registry does not list is never selected, and
    the store that the run saves holds for it the entry it had before:
    entries of names that left the registry are kept. *)
Theorem delisted_entry_kept (packages : option (list Name))
    (output : OutputFile) (existing_data : OutputFormat) (limit : option Z)
    (if_older_than : option hours) (pkg : Name) :
  load_existing_data output = Some existing_data ->
  pkg ∉ default [] packages ->
  (pkg ∉ to_scrape' (default [] packages) existing_data limit if_older_than)
  /\ (forall data,
        main' (RegistryLoaded packages) output limit if_older_than
        = ExitSaved data ->
        data !! pkg = existing_data !! pkg).
Proof using as_completed_perm.
  intros Hload Hreg.
  assert (pkg ∉ to_scrape' (default [] packages) existing_data limit
                  if_older_than) as Hnot.
  { intros Hin. apply Hreg.
    eapply elem_of_submseteq; [exact Hin|apply to_scrape_submseteq]. }
  split; [exact Hnot|].
  intros data Hmain. rewrite (main_saved _ _ _ _ _ _ Hload Hmain).
  apply merge_lookup_other. intros r Hr <-. apply Hnot.
  eapply results_name; [exact as_completed_perm|exact Hr].
Qed.

(** X5.  A name whose stored [last_scraped] is later than the cut-off of the
    run is not selected, and the store that the run saves holds its entry
    as it was. *)
Theorem fresh_entry_skipped (packages : option (list Name))
    (output : OutputFile) (existing_data : OutputFormat) (limit : option Z)
    (if_older_than : option hours) (pkg : Name) (info : PackageInfo)
    (t : IsoTimestamp) :
  load_existing_data output = Some existing_data ->
  existing_data !! pkg = Some info -> last_scraped info = Some t ->
  String.ltb (if_older_than_' if_older_than) t = true ->
  (pkg ∉ to_scrape' (default [] packages) existing_data limit if_older_than)
  /\ (forall data,
        main' (RegistryLoaded packages) output limit if_older_than
        = ExitSaved data ->
        data !! pkg = Some info).
Proof using as_completed_perm.
  intros Hload Hpkg Ht Hlt.
  assert (pkg ∉ to_scrape' (default [] packages) existing_data limit
                  if_older_than) as Hnot.
  { intros Hin. unfold to_scrape in Hin.
    assert (pkg ∈ packages_sorted_by_age (default [] packages) existing_data
                    (if_older_than_' if_older_than)) as Hin'.
    { eapply elem_of_submseteq; [exact Hin|].
      apply sublist_submseteq, slice_to_sublist. }
    apply packages_sorted_by_age_elem in Hin' as [_ Hle].
    rewrite (age_key_stored _ _ _ _ Hpkg Ht) in Hle.
    eapply StrOrder.ltb_not_leb; eassumption. }
  split; [exact Hnot|].
  intros data Hmain. rewrite (main_saved _ _ _ _ _ _ Hload Hmain), <- Hpkg.
  apply merge_lookup_other. intros r Hr <-. apply Hnot.
  eapply results_name; [exact as_completed_perm|exact Hr].
Qed.

(** X6.  A run keeps the invariant of the store: when every key of the
    loaded store holds a record of that name with a [last_scraped], so does
    every key of the store that the run saves. *)
Theorem store_invariant_kept (packages : option (list Name))
    (output : OutputFile) (existing_data : OutputFormat) (limit : option Z)
    (if_older_than : option hours) (data : OutputFormat) :
  load_existing_data output = Some existing_data ->
  store_ok existing_data ->
  main' (RegistryLoaded packages) output limit if_older_than = ExitSaved data ->
  store_ok data.
Proof using as_completed_perm.
  intros Hload Hok Hmain pkg r.
  rewrite (main_saved _ _ _ _ _ _ Hload Hmain), merge_lookup.
  destruct (last _) as [r'|] eqn:E; [|apply Hok].
  intros [= ->].
  apply last_Some_elem_of, list_elem_of_In, List.filter_In in E as [Hin Hname].
  apply list_elem_of_In in Hin. apply String.eqb_eq in Hname.
  split; [exact Hname|].
  apply (results_name now_string as_completed as_completed_perm session) in Hin
    as [_ ->]. eexists. reflexivity.
Qed.

Lemma results_last_named (names : list Name) (r : PackageInfo) :
  r ∈ results' names ->
  exists r', last (List.filter (fun x => String.eqb (name x) (name r))
                     (results' names)) = Some r'
             /\ r' ∈ results' names /\ name r' = name r.
Proof.
  intros Hr.
  assert (r ∈ List.filter (fun x => String.eqb (name x) (name r))
                (results' names)) as Hin.
  { apply list_elem_of_In, List.filter_In. split.
    - now apply list_elem_of_In.
    - apply String.eqb_refl. }
  destruct (last (List.filter (fun x => String.eqb (name x) (name r))
                    (results' names))) as [r'|] eqn:E.
  - exists r'. split; [reflexivity|].
    apply last_Some_elem_of, list_elem_of_In, List.filter_In in E as [Hin' Hn].
    split; [now apply list_elem_of_In|now apply String.eqb_eq].
  - apply last_None in E. rewrite E in Hin. inversion Hin.
Qed.

(** X7.  After the merge the age key of every name that got a record in the
    run is the timestamp of the run, and the age key of every other name is
    what it was.  Hence a name that got a record is not selected again by a
    selection whose cut-off is earlier than the timestamp of the run. *)
Theorem staleness_after_run (existing_data : OutputFormat) (names : list Name) :
  (forall r, r ∈ results' names ->
     age_key (merge existing_data (results' names)) (name r) = now_string)
  /\ (forall pkg, (forall r, r ∈ results' names -> name r <> pkg) ->
        age_key (merge existing_data (results' names)) pkg
        = age_key existing_data pkg)
  /\ (forall r L cutoff,
        r ∈ results' names -> String.ltb cutoff now_string = true ->
        name r ∉ packages_sorted_by_age L
                   (merge existing_data (results' names)) cutoff).
Proof using as_completed_perm.
  assert (forall r, r ∈ results' names ->
            age_key (merge existing_data (results' names)) (name r)
            = now_string) as Hkey.
  { intros r Hr. destruct (results_last_named names r Hr) as (r' & E & Hr' & _).
    unfold age_key. rewrite merge_lookup, E.
    apply (results_name now_string as_completed as_completed_perm session) in Hr'
      as [_ ->]. reflexivity. }
  split; [exact Hkey|]. split.
  - intros pkg Hnone. unfold age_key. now rewrite merge_lookup_other.
  - intros r L cutoff Hr Hlt [_ Hle]%packages_sorted_by_age_elem.
    rewrite (Hkey r Hr) in Hle.
    eapply StrOrder.ltb_not_leb; eassumption.
Qed.

(** X8.  Under any budget the run selects the stalest candidates: every name
    that passes the cut-off and is left out has an age key at least as late
    as that of every selected name. *)
Theorem budget_keeps_stalest (store : OutputFormat) (L : list Name)
    (limit : option Z) (if_older_than : option hours) (a b : Name) :
  a ∈ to_scrape' L store limit if_older_than ->
  b ∈ packages_sorted_by_age L store (if_older_than_' if_older_than) ->
  b ∉ to_scrape' L store limit if_older_than ->
  String.leb (age_key store a) (age_key store b) = true.
Proof.
  unfold to_scrape.
  destruct (slice_to_take
              (packages_sorted_by_age L store (if_older_than_' if_older_than))
              limit) as [n ->].
  intros (i & Hi & Hlt)%elem_of_take (j & Hj)%list_elem_of_lookup Hnot.
  assert (i < j)%nat as Hij.
  { destruct (decide (j < n)%nat) as [Hjn|Hjn]; [|lia].
    exfalso. apply Hnot. apply elem_of_take. eauto. }
  exact (strongly_sorted_lookup _ _ i j a b
           (sorted_sorted (age_key store) _) Hi Hj Hij).
Qed.

(** X9.  When the input lists no name twice, the selection lists no name
    twice, so a run makes at most one request for a name; and the run
    produces at most one record for each selected name, so with a budget of
    [k] items it merges at most [k] records. *)
Theorem one_request_per_name (store : OutputFormat) (L : list Name)
    (limit : option Z) (if_older_than : option hours) :
  NoDup L ->
  NoDup (to_scrape' L store limit if_older_than)
  /\ NoDup (name <$> results' (to_scrape' L store limit if_older_than))
  /\ (length (results' (to_scrape' L store limit if_older_than))
      <= length (to_scrape' L store limit if_older_than))%nat
  /\ (forall k, limit = Some k -> 0 <= k ->
        Z.of_nat (length (results' (to_scrape' L store limit if_older_than)))
        <= k).
Proof using as_completed_perm.
  intros Hnodup.
  assert (NoDup (to_scrape' L store limit if_older_than)) as Hsel.
  { eapply submseteq_NoDup_l; [apply to_scrape_submseteq|exact Hnodup]. }
  assert (length (results' (to_scrape' L store limit if_older_than))
          <= length (to_scrape' L store limit if_older_than))%nat as Hlen.
  { rewrite <- (length_fmap name).
    apply submseteq_length, results_names_submseteq. }
  split; [exact Hsel|]. split.
  - eapply submseteq_NoDup_l; [apply results_names_submseteq|exact Hsel].
  - split; [exact Hlen|]. intros k -> Hk.
    assert (length (to_scrape' L store (Some k) if_older_than)
            <= Z.to_nat k)%nat as Hk'.
    { unfold to_scrape, slice_to.
      destruct (Z.leb_spec 0 k) as [_|?]; [|lia]. rewrite length_take. lia. }
    lia.
Qed.

End RunExtras.

(** X10.  When the registry lists no name twice, the outcome of a run, and
    with it the store that is saved, does not depend on the order in which
    the fetches complete. *)
Theorem completion_order_irrelevant {hours : Type} (truthy : hours -> bool)
    (now_string : IsoTimestamp) (hours_before_now : hours -> IsoTimestamp)
    (as_completed1 as_completed2 :
       list (option PackageInfo) -> list (option PackageInfo))
    (session : nat -> Name -> Response)
    (packages : option (list Name)) (output : OutputFile)
    (limit : option Z) (if_older_than : option hours) :
  (forall tasks, Permutation tasks (as_completed1 tasks)) ->
  (forall tasks, Permutation tasks (as_completed2 tasks)) ->
  NoDup (default [] packages) ->
  main truthy now_string hours_before_now as_completed1 session
    (RegistryLoaded packages) output limit if_older_than
  = main truthy now_string hours_before_now as_completed2 session
      (RegistryLoaded packages) output limit if_older_than.
Proof.
  intros Hperm1 Hperm2 Hnodup. unfold main.
  destruct (load_existing_data output) as [existing_data|]; [|reflexivity].
  assert (merge existing_data
            (results now_string as_completed1 session
               (to_scrape truthy now_string hours_before_now
                  (default [] packages) existing_data limit if_older_than))
          = merge existing_data
              (results now_string as_completed2 session
                 (to_scrape truthy now_string hours_before_now
                    (default [] packages) existing_data limit if_older_than)))
    as Hmerge.
  { apply merge_permutation.
    - eapply submseteq_NoDup_l;
        [apply (results_names_submseteq now_string as_completed1 Hperm1)|].
      eapply submseteq_NoDup_l; [apply to_scrape_submseteq|exact Hnodup].
    - unfold results. now rewrite <- Hperm1, <- Hperm2. }
  destruct (to_scrape _ _ _ _ _ _ _); [destruct if_older_than|];
    try reflexivity; now rewrite Hmerge.
Qed.

(** ** The page address *)

Lemma quote_escape_decodes (c : ascii) :
  if is_unreserved c then Ascii.eqb c "%" = false
  else hex_value (hex_digit (N_of_ascii c / 16)) = Some (N_of_ascii c / 16)%N
       /\ hex_value (hex_digit (N_of_ascii c mod 16))
          = Some (N_of_ascii c mod 16)%N
       /\ ascii_of_N (16 * (N_of_ascii c / 16) + N_of_ascii c mod 16) = c.
Proof.
  destruct c as [[] [] [] [] [] [] [] []]; vm_compute; repeat split.
Qed.

Lemma quote_escape_unreserved (c : ascii) :
  is_unreserved (hex_digit (N_of_ascii c / 16)) = true
  /\ is_unreserved (hex_digit (N_of_ascii c mod 16)) = true.
Proof.
  destruct c as [[] [] [] [] [] [] [] []]; vm_compute; split; reflexivity.
Qed.

Lemma unquote_quote (s : string) : unquote (quote s) = s.
Proof.
  induction s as [|c s IH]; [reflexivity|].
  pose proof (quote_escape_decodes c) as Hc. cbn [quote].
  destruct (is_unreserved c).
  - cbn [unquote]. rewrite Hc. now rewrite IH.
  - destruct Hc as (Hh & Hl & Hc). cbn [unquote].
    change (Ascii.eqb "%" "%") with true. cbn iota.
    rewrite Hh, Hl, Hc. now rewrite IH.
Qed.

(** X11.  Decoding the percent escapes of a quoted name gives the name
    back, so two different names never share a page address. *)
Theorem package_url_injective (a b : Name) :
  unquote (quote a) = a
  /\ (quote a = quote b -> a = b)
  /\ (package_url a = package_url b -> a = b).
Proof.
  assert (quote a = quote b -> a = b) as Hinj.
  { intros H. rewrite <- (unquote_quote a), <- (unquote_quote b).
    now rewrite H. }
  split; [apply unquote_quote|]. split; [exact Hinj|].
  unfold package_url. intros H. apply Hinj.
  eapply (String.app_inj BASE_URL). exact H.
Qed.

(** X12.  A quoted name is made of letters, digits, [_ . - ~] and the
    percent sign only; it holds no slash, question mark, hash, ampersand or
    space, so the name cannot add a path segment, a query or a fragment to
    the page address. *)
Theorem quote_url_safe (s : string) :
  (forall c, occurs c (quote s) = true ->
             is_unreserved c = true \/ c = "%"%char)
  /\ occurs "/" (quote s) = false
  /\ occurs "?" (quote s) = false
  /\ occurs "#" (quote s) = false
  /\ occurs "&" (quote s) = false
  /\ occurs " " (quote s) = false.
Proof.
  assert (forall c, occurs c (quote s) = true ->
                    is_unreserved c = true \/ c = "%"%char) as Hsafe.
  { induction s as [|x s IH]; intros c; [discriminate|].
    cbn [quote]. destruct (is_unreserved x) eqn:Hx; cbn [occurs].
    - intros [Hc|Hc]%orb_true_iff; [|now apply IH].
      apply Ascii.eqb_eq in Hc. subst c. now left.
    - destruct (quote_escape_unreserved x) as [Hh Hl].
      intros [Hc|[Hc|[Hc|Hc]%orb_true_iff]%orb_true_iff]%orb_true_iff;
        try (apply Ascii.eqb_eq in Hc; subst c); auto. }
  split; [exact Hsafe|].
  repeat split;
    match goal with
    | |- occurs ?c _ = false =>
        destruct (occurs c (quote s)) eqn:E; [|reflexivity];
        destruct (Hsafe c E) as [H|H]; discriminate H
    end.
Qed.

(** X13.  A name made of letters, digits and [_ . - ~] only is its own
    quoted form. *)
Theorem quote_unreserved_unchanged (s : string) :
  (forall c, occurs c s = true -> is_unreserved c = true) ->
  quote s = s.
Proof.
  induction s as [|x s IH]; intros Hall; [reflexivity|].
  cbn [quote]. rewrite (Hall x).
  - f_equal. apply IH. intros c Hc. apply Hall. cbn [occurs].
    rewrite Hc. apply orb_true_r.
  - cbn [occurs]. now rewrite Ascii.eqb_refl.
Qed.

(** ** More on the field extractor *)

Lemma occurs_app (c : ascii) (a b : string) :
  occurs c (a +:+ b) = occurs c a || occurs c b.
Proof.
  induction a as [|x a IH]; simpl; [reflexivity|].
  now rewrite IH, orb_assoc.
Qed.

Lemma replace_no_old (old : ascii) (new s : string) :
  occurs old new = false -> occurs old (replace old new s) = false.
Proof.
  intros Hnew. induction s as [|c s IH]; simpl; [reflexivity|].
  destruct (Ascii.eqb c old) eqn:E.
  - now rewrite occurs_app, Hnew, IH.
  - simpl. now rewrite E, IH.
Qed.

Lemma occurs_rstrip (c : ascii) (chars : ascii -> bool) (s : string) :
  occurs c s = false -> occurs c (rstrip chars s) = false.
Proof.
  induction s as [|x s IH]; simpl; [reflexivity|].
  intros [Hx Hs]%orb_false_iff. specialize (IH Hs).
  destruct (rstrip chars s) as [|y r].
  - destruct (chars x); simpl; [reflexivity|]. now rewrite Hx.
  - cbn [occurs]. cbn [occurs] in IH. now rewrite Hx, IH.
Qed.

Lemma rstrip_last (chars : ascii -> bool) (x s : string) (c : ascii) :
  rstrip chars x = s +:+ String c "" -> chars c = false.
Proof.
  revert s. induction x as [|a x IH]; intros s; simpl.
  - destruct s; discriminate.
  - destruct (rstrip chars x) as [|b r] eqn:E.
    + destruct (chars a) eqn:Ha.
      * destruct s; discriminate.
      * destruct s as [|a' s]; simpl.
        -- intros [= <-]. exact Ha.
        -- intros [= _ H]. destruct s; discriminate.
    + destruct s as [|a' s]; simpl.
      * discriminate.
      * intros [= _ H]. now apply (IH s).
Qed.

(** X14.  Whatever the [title], a [first_seen] that [parse_first_seen]
    answers holds no ['T'] and does not end with a ['Z']. *)
Theorem first_seen_has_no_T_nor_final_Z (span : PageElement) (r : string) :
  parse_first_seen span = Some r ->
  occurs "T" r = false /\ forall s, r <> s +:+ "Z".
Proof.
  unfold parse_first_seen. destruct (attrs_get_title span) as [t|]; [|discriminate].
  destruct (String.eqb t ""); [discriminate|]. intros [= <-]. split.
  - apply occurs_rstrip, replace_no_old. reflexivity.
  - intros s Hs. apply rstrip_last in Hs. discriminate.
Qed.

(** X15.  For each of the four labels, the count that [parse_installs]
    reports is the count of the last [li] child that carries the label, and
    the field is absent when no [li] child carries it. *)
Theorem installs_field_is_last_entry (ul : PageElement) (label : string) :
  label = "Total" \/ label = "Win" \/ label = "Mac" \/ label = "Linux" ->
  installs_get label (parse_installs ul)
  = snd <$> last (List.filter (fun e => String.eqb (fst e) label)
                    (omap li_entry (find_all_children "li" ul))).
Proof.
  intros Hlabel. unfold parse_installs.
  rewrite (fold_parse_installs_get label _ _ Hlabel).
  destruct (last _); [reflexivity|].
  destruct Hlabel as [->|[->|[->| ->]]]; reflexivity.
Qed.

(** ** Decimal numerals and [int] *)

Lemma pretty_N_char_digit (d : N) :
  (d < 10)%N -> digit_value (pretty_N_char d) = Some (Z.of_N d).
Proof.
  intros Hd.
  assert (d = 0 \/ d = 1 \/ d = 2 \/ d = 3 \/ d = 4 \/ d = 5 \/ d = 6
          \/ d = 7 \/ d = 8 \/ d = 9)%N as H by lia.
  repeat (destruct H as [->|H]; [reflexivity|]). now subst d.
Qed.

Lemma int_digits_pretty_N_go (x : N) :
  (0 < x)%N ->
  exists m k,
    (forall s, String.length (pretty_N_go x s) = (k + String.length s)%nat)
    /\ forall s acc n b,
         int_digits acc n b (pretty_N_go x s)
         = int_digits (acc * m + Z.of_N x) (n + k) true s.
Proof.
  induction x as [x IH] using (well_founded_induction N.lt_wf_0). intros Hx.
  assert (x mod 10 < 10)%N as Hmod by (apply N.mod_lt; lia).
  pose proof (N.div_mod x 10 ltac:(lia)) as Hdm.
  destruct (N.eq_dec (x / 10) 0)%N as [Hq|Hq].
  - exists 10, 1%nat. split.
    + intros s. now rewrite pretty_N_go_step, Hq, pretty_N_go_0 by exact Hx.
    + intros s acc n b.
      rewrite pretty_N_go_step, Hq, pretty_N_go_0 by exact Hx.
      cbn [int_digits]. rewrite (pretty_N_char_digit _ Hmod).
      rewrite Nat.add_1_r. f_equal. lia.
  - destruct (IH (x / 10)%N) as (m & k & Hlen & Hm).
    + apply N.div_lt; lia.
    + now apply N.neq_0_lt_0.
    + exists (10 * m), (S k). split.
      * intros s. rewrite pretty_N_go_step, Hlen by exact Hx. simpl. lia.
      * intros s acc n b. rewrite pretty_N_go_step, Hm by exact Hx.
        cbn [int_digits]. rewrite (pretty_N_char_digit _ Hmod).
        rewrite Nat.add_succ_r. f_equal. lia.
Qed.

Lemma pretty_N_go_chars (x : N) (s : string) (c : ascii) :
  occurs c (pretty_N_go x s) = true ->
  occurs c s = true \/ digit_value c <> None.
Proof.
  revert s. induction x as [x IH] using (well_founded_induction N.lt_wf_0).
  intros s. destruct (N.eq_dec x 0%N) as [->|Hx].
  - rewrite pretty_N_go_0. now left.
  - rewrite pretty_N_go_step by lia. intros H.
    apply IH in H; [|apply N.div_lt; lia].
    destruct H as [H|H]; [|now right]. cbn [occurs] in H.
    apply orb_true_iff in H as [H|H]; [|now left].
    apply Ascii.eqb_eq in H. subst c. right.
    rewrite pretty_N_char_digit; [discriminate|apply N.mod_lt; lia].
Qed.

Lemma pretty_N_go_head (x : N) (s : string) :
  (0 < x)%N ->
  exists d rest, pretty_N_go x s = String d rest /\ digit_value d <> None.
Proof.
  revert s. induction x as [x IH] using (well_founded_induction N.lt_wf_0).
  intros s Hx. rewrite pretty_N_go_step by exact Hx.
  destruct (N.eq_dec (x / 10) 0)%N as [Hq|Hq].
  - rewrite Hq, pretty_N_go_0. eexists _, _. split; [reflexivity|].
    rewrite pretty_N_char_digit; [discriminate|apply N.mod_lt; lia].
  - apply IH; [apply N.div_lt; lia|now apply N.neq_0_lt_0].
Qed.

Lemma digit_is_plain (c : ascii) :
  digit_value c <> None ->
  is_blank c = false /\ Ascii.eqb c "," = false /\ (N_of_ascii c < 127)%N.
Proof.
  intros Hc.
  destruct c as [[] [] [] [] [] [] [] []];
    try (exfalso; apply Hc; reflexivity); repeat split.
Qed.

Lemma rstrip_nothing (chars : ascii -> bool) (s : string) :
  (forall c, occurs c s = true -> chars c = false) -> rstrip chars s = s.
Proof.
  induction s as [|x s IH]; intros Hall; simpl; [reflexivity|].
  rewrite IH.
  - destruct s; [|reflexivity]. rewrite (Hall x); [reflexivity|].
    simpl. now rewrite Ascii.eqb_refl.
  - intros c Hc. apply Hall. simpl. rewrite Hc. apply orb_true_r.
Qed.

Lemma to_ascii_of_ascii (s : string) :
  (forall c, occurs c s = true -> (N_of_ascii c < 127)%N) -> to_ascii s = s.
Proof.
  induction s as [|c s IH]; intros Hall; [reflexivity|].
  assert (N_of_ascii c < 127)%N as Hc.
  { apply Hall. simpl. now rewrite Ascii.eqb_refl. }
  assert (to_ascii s = s) as IH'.
  { apply IH. intros c' Hc'. apply Hall. simpl. rewrite Hc'. apply orb_true_r. }
  unfold to_ascii in *. cbn [chars].
  destruct (N.ltb_spec (N_of_ascii c) 192) as [_|?]; [|lia].
  rewrite fmap_cons. cbn [string_of_list_ascii]. rewrite IH'. f_equal.
  unfold to_ascii_char, ord.
  destruct (N.ltb_spec (N_of_ascii c) 128) as [_|?]; [|lia].
  destruct (N.ltb_spec (N_of_ascii c) 127) as [_|?]; [|lia].
  apply ascii_N_embedding.
Qed.

Lemma pretty_N_go_digits_only (x : N) (c : ascii) :
  occurs c (pretty_N_go x "") = true -> digit_value c <> None.
Proof. intros [H|H]%pretty_N_go_chars; [discriminate|exact H]. Qed.

Lemma int_pretty_N_go (x : N) :
  (0 < x)%N ->
  (String.length (pretty_N_go x "") <= int_max_str_digits)%nat ->
  int (pretty_N_go x "") = Some (Z.of_N x).
Proof.
  intros Hx Hlen. unfold int. rewrite to_ascii_of_ascii.
  2:{ intros c Hc. now apply pretty_N_go_digits_only, digit_is_plain in Hc. }
  destruct (pretty_N_go_head x "" Hx) as (d & rest & E & Hd).
  pose proof (pretty_N_go_digits_only x) as Hall.
  destruct (int_digits_pretty_N_go x Hx) as (m & k & Hk & Hm).
  specialize (Hk ""). rewrite Hk in Hlen.
  change (String.length "") with 0%nat in Hlen. rewrite Nat.add_0_r in Hlen.
  apply Nat.leb_le in Hlen. specialize (Hm "" 0 0%nat false).
  rewrite E in Hall, Hm |- *. cbn [lstrip].
  destruct (digit_is_plain d Hd) as [Hblank _]. rewrite Hblank.
  rewrite rstrip_nothing.
  2:{ intros c Hc. now apply Hall, digit_is_plain in Hc. }
  assert (int_digits 0 0 false (String d rest) = Some (Z.of_N x)) as Hint.
  { rewrite Hm. cbn [int_digits andb Nat.add]. rewrite Hlen. reflexivity. }
  rewrite <- Hint.
  destruct d as [[] [] [] [] [] [] [] []];
    try (exfalso; apply Hd; reflexivity); reflexivity.
Qed.

Lemma int_pretty (z : Z) :
  (String.length (pretty (Z.abs z)) <= int_max_str_digits)%nat ->
  int (pretty z) = Some z.
Proof.
  destruct z as [|p|p]; [reflexivity| |].
  - change (pretty (Z.abs (Z.pos p))) with (pretty_N_go (N.pos p) "").
    change (pretty (Z.pos p)) with (pretty_N_go (N.pos p) "").
    intros Hlen. now rewrite int_pretty_N_go.
  - change (pretty (Z.abs (Z.neg p))) with (pretty_N_go (N.pos p) "").
    change (pretty (Z.neg p)) with (String "-" (pretty_N_go (N.pos p) "")).
    intros Hlen. unfold int. rewrite to_ascii_of_ascii.
    2:{ intros c. cbn [occurs]. intros [H|H]%orb_true_iff.
        - apply Ascii.eqb_eq in H. subst c. reflexivity.
        - now apply pretty_N_go_digits_only, digit_is_plain in H. }
    cbn [lstrip]. change (is_blank "-") with false. cbn iota.
    rewrite rstrip_nothing.
    2:{ intros c. cbn [occurs]. intros [H|H]%orb_true_iff.
        - apply Ascii.eqb_eq in H. now subst c.
        - now apply pretty_N_go_digits_only, digit_is_plain in H as [H _]. }
    destruct (int_digits_pretty_N_go (N.pos p) ltac:(lia)) as (m & k & Hk & Hm).
    specialize (Hk ""). rewrite Hk in Hlen.
    change (String.length "") with 0%nat in Hlen. rewrite Nat.add_0_r in Hlen.
    apply Nat.leb_le in Hlen.
    rewrite Hm. cbn [int_digits andb Nat.add]. rewrite Hlen. reflexivity.
Qed.

Lemma pretty_no_comma (z : Z) : occurs "," (pretty z) = false.
Proof.
  assert (forall x, occurs "," (pretty_N_go x "") = false) as Hgo.
  { intros x. destruct (occurs "," (pretty_N_go x "")) eqn:E; [|reflexivity].
    apply pretty_N_go_digits_only in E. exfalso. now apply E. }
  destruct z as [|p|p]; [reflexivity| |].
  - change (pretty (Z.pos p)) with (pretty_N_go (N.pos p) ""). apply Hgo.
  - change (pretty (Z.neg p)) with (String "-" (pretty_N_go (N.pos p) "")).
    cbn [occurs]. now rewrite Hgo.
Qed.

(** X16.  [int] reads the decimal numeral of an integer back as that
    integer when the numeral has at most [int_max_str_digits] digits, so a
    counter whose [title] spells such a numeral, with commas put anywhere in
    it, counts as that integer; the count is negative when the numeral
    is. *)
Theorem installs_count_of_numeral (z : Z) (t : string) (class_ : list string)
    (contents : list PageElement) :
  (String.length (pretty (Z.abs z)) <= int_max_str_digits)%nat ->
  replace "," "" t = pretty z ->
  int (pretty z) = Some z
  /\ installs_count (Tag "span" class_ (Some t) contents) = z
  /\ installs_count (Tag "span" class_ (Some (pretty z)) contents) = z.
Proof.
  intros Hlen Ht. split; [now apply int_pretty|]. unfold installs_count. simpl.
  rewrite Ht, (replace_absent _ _ _ (pretty_no_comma z)), (int_pretty z Hlen).
  split; reflexivity.
Qed.

(** ** Thresholds *)

(** X17.  A name selected under a cut-off is selected under every later
    cut-off. *)
Theorem later_cutoff_selects_more (store : OutputFormat) (L : list Name)
    (cutoff1 cutoff2 : IsoTimestamp) (pkg : Name) :
  String.leb cutoff1 cutoff2 = true ->
  pkg ∈ packages_sorted_by_age L store cutoff1 ->
  pkg ∈ packages_sorted_by_age L store cutoff2.
Proof.
  intros Hle [Hin Hkey]%packages_sorted_by_age_elem.
  apply packages_sorted_by_age_elem. split; [exact Hin|].
  eapply StrOrder.leb_trans; eassumption.
Qed.

(** X18.  A threshold of zero selects the same names as no threshold, and
    the run is the same when something is selected; when nothing is
    selected the run with the zero threshold ends without writing the output
    file, whereas the run without threshold writes the store as it was. *)
Theorem zero_threshold_run {hours : Type} (truthy : hours -> bool)
    (now_string : IsoTimestamp) (hours_before_now : hours -> IsoTimestamp)
    (as_completed : list (option PackageInfo) -> list (option PackageInfo))
    (session : nat -> Name -> Response) (h : hours)
    (packages : option (list Name)) (output : OutputFile)
    (existing_data : OutputFormat) (limit : option Z) :
  (forall tasks, Permutation tasks (as_completed tasks)) ->
  truthy h = false ->
  load_existing_data output = Some existing_data ->
  to_scrape truthy now_string hours_before_now (default [] packages)
    existing_data limit (Some h)
  = to_scrape truthy now_string hours_before_now (default [] packages)
      existing_data limit None
  /\ (to_scrape truthy now_string hours_before_now (default [] packages)
        existing_data limit None <> [] ->
      main truthy now_string hours_before_now as_completed session
        (RegistryLoaded packages) output limit (Some h)
      = main truthy now_string hours_before_now as_completed session
          (RegistryLoaded packages) output limit None)
  /\ (to_scrape truthy now_string hours_before_now (default [] packages)
        existing_data limit None = [] ->
      main truthy now_string hours_before_now as_completed session
        (RegistryLoaded packages) output limit (Some h)
      = ExitNothingOlder
      /\ main truthy now_string hours_before_now as_completed session
           (RegistryLoaded packages) output limit None
         = ExitSaved existing_data).
Proof.
  intros Hperm Hh Hload.
  assert (to_scrape truthy now_string hours_before_now (default [] packages)
            existing_data limit (Some h)
          = to_scrape truthy now_string hours_before_now (default [] packages)
              existing_data limit None) as Hsame.
  { unfold to_scrape, if_older_than_. now rewrite Hh. }
  remember (to_scrape truthy now_string hours_before_now (default [] packages)
              existing_data limit None) as names eqn:Enames.
  split; [exact Hsame|]. unfold main. rewrite Hload. cbv zeta.
  rewrite Hsame, <- Enames. split.
  - intros Hne. destruct names; [congruence|reflexivity].
  - intros ->. split; [reflexivity|]. unfold results. simpl.
    pose proof (Hperm []) as Hnil. apply Permutation_nil in Hnil.
    now rewrite Hnil.
Qed.

(** ** The further theorems on sample runs *)

Lemma sample_store_ok : store_ok sample_store.
Proof.
  intros pkg r. unfold sample_store.
  intros [[<- <-]|[_ [<- <-]%lookup_singleton_Some]]%lookup_insert_Some;
    split; try reflexivity; eexists; reflexivity.
Qed.

Lemma merge_order_independent_witness :
  NoDup (name <$> [sample_record "P" sample_now; sample_record "Q" sample_now])
  /\ merge sample_store
       [sample_record "P" sample_now; sample_record "Q" sample_now]
     = merge sample_store
         [sample_record "Q" sample_now; sample_record "P" sample_now].
Proof.
  assert (NoDup (name <$> [sample_record "P" sample_now;
                           sample_record "Q" sample_now])) as Hnodup
    by compute_done.
  split; [exact Hnodup|].
  apply (merge_order_independent sample_store _ _ Hnodup). apply perm_swap.
Defined.

Lemma unselected_entry_kept_witness :
  load_existing_data (FileJson sample_store) = Some sample_store
  /\ ("X" ∉ to_scrape sample_truthy sample_now sample_hours_before_now
              (default [] (Some ["Y"; "A"])) sample_store (Some 20) None)
  /\ forall data,
       main sample_truthy sample_now sample_hours_before_now
         sample_as_completed sample_session
         (RegistryLoaded (Some ["Y"; "A"])) (FileJson sample_store)
         (Some 20) None
       = ExitSaved data ->
       data !! "X" = sample_store !! "X".
Proof.
  assert ("X" ∉ to_scrape sample_truthy sample_now sample_hours_before_now
                  (default [] (Some ["Y"; "A"])) sample_store (Some 20) None)
    as Hnot by compute_done.
  split; [reflexivity|]. split; [exact Hnot|].
  apply (unselected_entry_kept sample_truthy sample_now
           sample_hours_before_now sample_as_completed
           sample_as_completed_perm sample_session
           (Some ["Y"; "A"]) (FileJson sample_store) sample_store
           (Some 20) None "X" eq_refl Hnot).
Defined.

Lemma fresh_entry_skipped_witness :
  sample_fresh_store !! "A" = Some (sample_record "A" "2025-05-07 11:30:00")
  /\ String.ltb
       (if_older_than_ sample_truthy sample_now sample_hours_before_now
          (Some OneHour))
       "2025-05-07 11:30:00" = true
  /\ ("A" ∉ to_scrape sample_truthy sample_now sample_hours_before_now
              (default [] (Some ["A"; "B"])) sample_fresh_store (Some 20)
              (Some OneHour)).
Proof.
  split; [reflexivity|]. split; [reflexivity|].
  apply (fresh_entry_skipped sample_truthy sample_now
           sample_hours_before_now sample_as_completed
           sample_as_completed_perm sample_session
           (Some ["A"; "B"]) (FileJson sample_fresh_store) sample_fresh_store
           (Some 20) (Some OneHour) "A"
           (sample_record "A" "2025-05-07 11:30:00") "2025-05-07 11:30:00");
    reflexivity.
Defined.

Lemma store_invariant_kept_witness :
  store_ok
    (merge sample_store
       (results sample_now sample_as_completed sample_session
          (to_scrape sample_truthy sample_now sample_hours_before_now
             (default [] (Some ["X"; "Y"; "A"])) sample_store (Some 20) None))).
Proof.
  apply (store_invariant_kept sample_truthy sample_now
           sample_hours_before_now sample_as_completed
           sample_as_completed_perm sample_session
           (Some ["X"; "Y"; "A"]) (FileJson sample_store) sample_store
           (Some 20) None _ eq_refl sample_store_ok).
  vm_compute. reflexivity.
Defined.

Lemma staleness_after_run_witness :
  age_key
    (merge sample_store
       (results sample_now sample_as_completed sample_session ["X"; "Y"; "A"]))
    "Y"
  = sample_now.
Proof.
  refine (proj1 (staleness_after_run sample_now sample_as_completed
                   sample_as_completed_perm sample_session
                   sample_store ["X"; "Y"; "A"])
            {| name := "Y"; first_seen := None;
               total_installs := None; win_installs := None;
               mac_installs := None; linux_installs := None;
               last_scraped := Some sample_now;
               fail_reason := Some (Some "HTTP 404") |} _).
  vm_compute. right. left.
Defined.

Lemma budget_keeps_stalest_witness :
  ("X" ∈ to_scrape sample_truthy sample_now sample_hours_before_now
           ["Y"; "X"] sample_store (Some 1) None)
  /\ ("Y" ∉ to_scrape sample_truthy sample_now sample_hours_before_now
              ["Y"; "X"] sample_store (Some 1) None)
  /\ String.leb (age_key sample_store "X") (age_key sample_store "Y") = true.
Proof.
  assert ("X" ∈ to_scrape sample_truthy sample_now sample_hours_before_now
                  ["Y"; "X"] sample_store (Some 1) None) as Hin
    by compute_done.
  assert ("Y" ∉ to_scrape sample_truthy sample_now sample_hours_before_now
                  ["Y"; "X"] sample_store (Some 1) None) as Hnot
    by compute_done.
  split; [exact Hin|]. split; [exact Hnot|].
  apply (budget_keeps_stalest sample_truthy sample_now sample_hours_before_now
           sample_store ["Y"; "X"] (Some 1) None "X" "Y" Hin); [|exact Hnot].
  compute_done.
Defined.

Lemma one_request_per_name_witness :
  NoDup ["X"; "Y"; "A"]
  /\ NoDup (to_scrape sample_truthy sample_now sample_hours_before_now
              ["X"; "Y"; "A"] sample_store (Some 2) None).
Proof.
  assert (NoDup ["X"; "Y"; "A"]) as Hnodup by compute_done.
  split; [exact Hnodup|].
  apply (one_request_per_name sample_truthy sample_now sample_hours_before_now
           sample_as_completed sample_as_completed_perm sample_session
           sample_store ["X"; "Y"; "A"] (Some 2) None Hnodup).
Defined.

Lemma completion_order_irrelevant_witness :
  NoDup (default [] (Some ["X"; "Y"; "A"]))
  /\ main sample_truthy sample_now sample_hours_before_now
       sample_as_completed sample_session
       (RegistryLoaded (Some ["X"; "Y"; "A"])) (FileJson sample_store)
       (Some 20) None
     = main sample_truthy sample_now sample_hours_before_now
         (fun tasks => tasks) sample_session
         (RegistryLoaded (Some ["X"; "Y"; "A"])) (FileJson sample_store)
         (Some 20) None.
Proof.
  assert (NoDup (default [] (Some ["X"; "Y"; "A"]))) as Hnodup by compute_done.
  split; [exact Hnodup|].
  apply (completion_order_irrelevant sample_truthy sample_now
           sample_hours_before_now sample_as_completed (fun tasks => tasks)
           sample_session (Some ["X"; "Y"; "A"]) (FileJson sample_store)
           (Some 20) None sample_as_completed_perm
           (fun tasks => Permutation_refl tasks) Hnodup).
Defined.

Lemma quote_unreserved_unchanged_witness :
  quote "Package-Name_1.0~" = "Package-Name_1.0~".
Proof.
  apply (quote_unreserved_unchanged "Package-Name_1.0~").
  intros c. destruct c as [[] [] [] [] [] [] [] []]; vm_compute;
    intros H; try reflexivity; discriminate H.
Defined.

Lemma first_seen_has_no_T_nor_final_Z_witness :
  parse_first_seen sample_first_seen_span = Some "2025-05-07 18:00:05"
  /\ occurs "T" "2025-05-07 18:00:05" = false.
Proof.
  split; [reflexivity|].
  apply (first_seen_has_no_T_nor_final_Z sample_first_seen_span
           "2025-05-07 18:00:05" eq_refl).
Defined.

Lemma installs_field_is_last_entry_witness :
  installs_get "Win" (parse_installs sample_installs_ul)
  = snd <$> last (List.filter (fun e => String.eqb (fst e) "Win")
                    (omap li_entry (find_all_children "li" sample_installs_ul))).
Proof.
  apply (installs_field_is_last_entry sample_installs_ul "Win").
  right. left. reflexivity.
Defined.

Lemma installs_count_of_numeral_witness :
  (String.length (pretty (Z.abs 1234567)) <= int_max_str_digits)%nat
  /\ replace "," "" "1,234,567" = pretty 1234567
  /\ installs_count (Tag "span" ["installs"] (Some "1,234,567") []) = 1234567.
Proof.
  assert (String.length (pretty (Z.abs 1234567)) <= int_max_str_digits)%nat
    as Hlen by (apply Nat.leb_le; reflexivity).
  split; [exact Hlen|]. split; [reflexivity|].
  apply (installs_count_of_numeral 1234567 "1,234,567" ["installs"] [] Hlen).
  reflexivity.
Defined.

Lemma later_cutoff_selects_more_witness :
  String.leb "2025-05-01 12:00:00" "2025-05-03 12:00:00" = true
  /\ ("X" ∈ packages_sorted_by_age ["X"; "Y"] sample_store "2025-05-01 12:00:00")
  /\ ("X" ∈ packages_sorted_by_age ["X"; "Y"] sample_store "2025-05-03 12:00:00").
Proof.
  assert ("X" ∈ packages_sorted_by_age ["X"; "Y"] sample_store
                  "2025-05-01 12:00:00") as Hin by compute_done.
  split; [reflexivity|]. split; [exact Hin|].
  apply (later_cutoff_selects_more sample_store ["X"; "Y"]
           "2025-05-01 12:00:00" "2025-05-03 12:00:00" "X" eq_refl Hin).
Defined.

Lemma zero_threshold_run_witness :
  sample_truthy ZeroHours = false
  /\ load_existing_data FileMissing = Some ∅
  /\ to_scrape sample_truthy sample_now sample_hours_before_now
       (default [] (Some ["A"; "B"])) ∅ (Some 0) (Some ZeroHours)
     = to_scrape sample_truthy sample_now sample_hours_before_now
         (default [] (Some ["A"; "B"])) ∅ (Some 0) None.
Proof.
  split; [reflexivity|]. split; [reflexivity|].
  apply (zero_threshold_run sample_truthy sample_now sample_hours_before_now
           sample_as_completed sample_session ZeroHours (Some ["A"; "B"])
           FileMissing ∅ (Some 0) sample_as_completed_perm eq_refl eq_refl).
Defined.

Lemma delisted_entry_kept_witness :
  load_existing_data (FileJson sample_store) = Some sample_store
  /\ ("X" ∉ default [] (Some ["Y"; "A"]))
  /\ forall data,
       main sample_truthy sample_now sample_hours_before_now
         sample_as_completed sample_session
         (RegistryLoaded (Some ["Y"; "A"])) (FileJson sample_store)
         None None
       = ExitSaved data ->
       data !! "X" = sample_store !! "X".
Proof.
  assert ("X" ∉ default [] (Some ["Y"; "A"])) as Hnot by compute_done.
  split; [reflexivity|]. split; [exact Hnot|].
  apply (delisted_entry_kept sample_truthy sample_now
           sample_hours_before_now sample_as_completed
           sample_as_completed_perm sample_session
           (Some ["Y"; "A"]) (FileJson sample_store) sample_store
           None None "X" eq_refl Hnot).
Defined.

(** ** Text outside ASCII, long numerals and surrogates *)

(** A label that starts with a no-break space (bytes 0xC2 0xA0) and ends
    with an ideographic space (bytes 0xE3 0x80 0x80) is stripped to the
    label, and the entry is recognised. *)
Example strip_unicode_whitespace :
  strip (string_of_list_ascii [ascii_of_N 194; ascii_of_N 160]
         +:+ "Total"
         +:+ string_of_list_ascii [ascii_of_N 227; ascii_of_N 128; ascii_of_N 128])
  = "Total"
  /\ parse_installs
       (Tag "ul" ["totals"] None
          [Tag "li" [] None
             [span ["total"] None
                (string_of_list_ascii [ascii_of_N 194; ascii_of_N 160]
                 +:+ "Total");
              span ["installs"] (Some "7") "7"]])
     = {| i_total_installs := Some 7; i_win_installs := None;
          i_mac_installs := None; i_linux_installs := None |}.
Proof. split; vm_compute; reflexivity. Qed.

(** The fullwidth digits one and two (bytes 0xEF 0xBC 0x91 and 0xEF 0xBC
    0x92) read as 12; the superscript two (bytes 0xC2 0xB2), which is no
    decimal digit, does not read. *)
Example int_unicode_digits :
  int (string_of_list_ascii
         [ascii_of_N 239; ascii_of_N 188; ascii_of_N 145;
          ascii_of_N 239; ascii_of_N 188; ascii_of_N 146])
  = Some 12
  /\ int (string_of_list_ascii [ascii_of_N 194; ascii_of_N 178]) = None.
Proof. split; vm_compute; reflexivity. Qed.

(** A numeral of 4300 digits reads, one of 4301 digits does not, and the
    count of a counter with such a [title] is 0. *)
Example int_digit_limit :
  int (string_of_list_ascii (replicate 4300 "0"%char)) = Some 0
  /\ int (string_of_list_ascii (replicate 4301 "0"%char)) = None
  /\ installs_count
       (Tag "span" ["installs"]
          (Some (string_of_list_ascii ("1"%char :: replicate 4300 "0"%char)))
          [])
     = 0.
Proof. repeat split; vm_compute; reflexivity. Qed.

(** [quote] raises on a name that holds the surrogate U+D800 (bytes 0xED
    0xA0 0x80) and on no name of the sample runs; a run that selects such a
    name ends without writing the output file. *)
Example run_aborts_on_surrogate_name :
  quote_raises (string_of_list_ascii [ascii_of_N 237; ascii_of_N 160; ascii_of_N 128])
  = true
  /\ existsb quote_raises ["A"; "B"; "X"; "Y"; "A File Icon"] = false
  /\ main sample_truthy sample_now sample_hours_before_now
       sample_as_completed sample_session
       (RegistryLoaded
          (Some ["A";
                 string_of_list_ascii
                   [ascii_of_N 237; ascii_of_N 160; ascii_of_N 128]]))
       (FileJson sample_store) (Some 20) None
     = ExitRaised
  /\ output_after (FileJson sample_store) ExitRaised = FileJson sample_store.
Proof. repeat split; vm_compute; reflexivity. Qed.
